(** * Time tracking core: break construction, overlap detection, session
    merging and the work-hour calculator of [app.services] / [app.database].

    Timestamps are naive [datetime] values, modelled as a [Z] count of
    microseconds since a fixed midnight (the resolution of Python's
    [datetime]); a day is [DAY_US] microseconds.  Durations in minutes are
    Python [int]s ([Z]).  Hours are Python floats computed by one division;
    they are modelled as exact rationals ([Q]). *)

From Stdlib Require Import List ZArith QArith Qabs Qround String Ascii Bool Lia Lqa Permutation.
Import ListNotations.
Open Scope Z_scope.

(* ------------------------------------------------------------------ *)
(** ** app/database/models.py *)

Inductive BreakType := BREAK1 | BREAK2 | BIO.

Definition BreakType_eqb (a b : BreakType) : bool :=
  match a, b with
  | BREAK1, BREAK1 | BREAK2, BREAK2 | BIO, BIO => true
  | _, _ => false
  end.

(** [BreakType.value]: the enum is a [str] mixin, formatted by its value. *)
Definition BreakType_value (k : BreakType) : string :=
  match k with
  | BREAK1 => "break1"
  | BREAK2 => "break2"
  | BIO => "bio"
  end.

Record BreakEntry := mkBreakEntry {
  break_type : BreakType;
  start_time : option Z;
  end_time : option Z;
  duration_minutes : option Z;
  break_timezone : string
}.

Definition US_PER_SECOND : Z := 1000000.
Definition US_PER_MINUTE : Z := 60 * US_PER_SECOND.
Definition US_PER_HOUR : Z := 3600 * US_PER_SECOND.
Definition DAY_US : Z := 86400 * US_PER_SECOND.

(** [int((end - start).total_seconds() / 60)]: [int] truncates toward zero. *)
Definition int_minutes (delta_us : Z) : Z := Z.quot delta_us US_PER_MINUTE.

(** [BreakEntry.validate_end_time]: [None] is the raised [ValueError]. *)
Definition validate_end_time (start end_ : option Z) : option (option Z) :=
  match end_, start with
  | Some e, Some s => if e <=? s then None else Some end_
  | _, _ => Some end_
  end.

(** [BreakEntry.calculate_duration] ([pre=True, always=True]). *)
Definition calculate_duration (v : option Z) (start end_ : option Z) : option Z :=
  match v with
  | Some _ => v
  | None =>
      match start, end_ with
      | Some s, Some e => Some (int_minutes (e - s))
      | _, _ => v
      end
  end.

(** Construction [BreakEntry(...)]: pydantic runs the field validators in
    field order; [None] is the [ValidationError]. *)
Definition construct_BreakEntry (k : BreakType) (start end_ dur : option Z)
    (tz : string) : option BreakEntry :=
  match validate_end_time start end_ with
  | None => None
  | Some e => Some (mkBreakEntry k start e (calculate_duration dur start e) tz)
  end.

Record TimeEntry := mkTimeEntry {
  emp_id : string;
  login_time : option Z;
  logout_time : option Z;
  breaks : list BreakEntry;
  timezone : string
}.

(* ------------------------------------------------------------------ *)
(** ** Rendering helpers for the f-strings *)

Fixpoint digits_aux (fuel n : nat) (acc : string) : string :=
  match fuel with
  | O => acc
  | S f =>
      let acc' := String (ascii_of_nat (48 + Nat.modulo n 10)) acc in
      if Nat.ltb n 10 then acc' else digits_aux f (Nat.div n 10) acc'
  end.

Definition string_of_nat (n : nat) : string := digits_aux (S n) n "".

Definition string_of_Z (z : Z) : string :=
  if z <? 0 then String "-" (string_of_nat (Z.to_nat (- z)))
  else string_of_nat (Z.to_nat z).

(** Strict comparison of floats. *)
Definition Qlt_bool (x y : Q) : bool := negb (Qle_bool y x).

(** Python's [round] / ["{:.0f}"] on a float: half to even. *)
Definition py_round (q : Q) : Z :=
  let fl := Qfloor q in
  let frac := (q - inject_Z fl)%Q in
  if Qlt_bool frac (1 # 2) then fl
  else if Qlt_bool (1 # 2) frac then fl + 1
  else if Z.even fl then fl else fl + 1.

Fixpoint join (sep : string) (l : list string) : string :=
  match l with
  | [] => ""
  | [x] => x
  | x :: r => (x ++ sep ++ join sep r)%string
  end.

(* ------------------------------------------------------------------ *)
(** ** app/services/time_calculator.py: [check_overlapping_breaks] *)

(** One element of [timed]: [(i, b)] with [b.start_time] and [b.end_time]. *)
Record Timed := mkTimed { t_idx : nat; t_type : BreakType; t_start : Z; t_end : Z }.

(** [[(i, b) for i, b in enumerate(breaks) if b.start_time and b.end_time]],
    enumeration starting at [n]. *)
Fixpoint timed_from (n : nat) (l : list BreakEntry) : list Timed :=
  match l with
  | [] => []
  | b :: l' =>
      match start_time b, end_time b with
      | Some s, Some e => mkTimed n (break_type b) s e :: timed_from (S n) l'
      | _, _ => timed_from (S n) l'
      end
  end.

Definition disjoint (x y : Timed) : bool :=
  (t_end x <=? t_start y) || (t_end y <=? t_start x).

(** The data of one appended message: both kinds, both 1-based positions and
    [ov_min = (ov_end - ov_start).total_seconds() / 60]. *)
Record Overlap := mkOverlap {
  ov_type1 : BreakType; ov_pos1 : nat;
  ov_type2 : BreakType; ov_pos2 : nat;
  ov_min : Q
}.

Definition overlap_of (x y : Timed) : Overlap :=
  let ov_start := Z.max (t_start x) (t_start y) in
  let ov_end := Z.min (t_end x) (t_end y) in
  mkOverlap (t_type x) (S (t_idx x)) (t_type y) (S (t_idx y))
            (inject_Z (ov_end - ov_start) / inject_Z US_PER_MINUTE)%Q.

Definition render_overlap (o : Overlap) : string :=
  (BreakType_value (ov_type1 o) ++ "(" ++ string_of_nat (ov_pos1 o) ++ ") overlaps "
   ++ BreakType_value (ov_type2 o) ++ "(" ++ string_of_nat (ov_pos2 o) ++ ") for "
   ++ string_of_Z (py_round (ov_min o)) ++ " min")%string.

(** Inner loop [for idx2, br2 in timed[i + 1 :]]. *)
Fixpoint overlaps_with (x : Timed) (rest : list Timed) : list Overlap :=
  match rest with
  | [] => []
  | y :: rest' =>
      if disjoint x y then overlaps_with x rest'
      else overlap_of x y :: overlaps_with x rest'
  end.

(** Outer loop [for i, (idx1, br1) in enumerate(timed)]. *)
Fixpoint overlaps_all (timed : list Timed) : list Overlap :=
  match timed with
  | [] => []
  | x :: rest => overlaps_with x rest ++ overlaps_all rest
  end.

(** The list [overlapping] built by [check_overlapping_breaks]. *)
Definition overlapping (bs : list BreakEntry) : list Overlap :=
  overlaps_all (timed_from 0 bs).

Definition check_overlapping_breaks (bs : list BreakEntry) : bool * option string :=
  match overlapping bs with
  | [] => (false, None)
  | ov => (true, Some (join "; " (map render_overlap ov)))
  end.

(** [handle_overlapping_breaks]: the breaks unchanged and the sub-report. *)
Record OverlapReport := mkOverlapReport {
  has_overlaps : bool;
  overlap_details : option string
}.

Definition handle_overlapping_breaks (bs : list BreakEntry)
    : list BreakEntry * OverlapReport :=
  let (has, msg) := check_overlapping_breaks bs in (bs, mkOverlapReport has msg).

(* ------------------------------------------------------------------ *)
(** ** app/services/time_calculator.py: [calculate_work_hours] *)

Definition STANDARD_WORK_HOURS : Z := 9.
Definition MANDATORY_BREAK_MINUTES : Z := 30.
Definition MAX_BIO_BREAK_MINUTES : Z := 30.
Definition DEFAULT_LOGOUT_HOUR : Z := 18.

(** [t.replace(hour=h, minute=0, second=0)]: same date, same microsecond. *)
Definition replace_hms (t h : Z) : Z :=
  (t / DAY_US) * DAY_US + h * US_PER_HOUR + t mod US_PER_SECOND.

(** Python's [max(a, b)] and [min(a, b)]: the first argument unless the
    second is strictly larger (smaller). *)
Definition py_max (a b : Q) : Q := if Qlt_bool a b then b else a.
Definition py_min (a b : Q) : Q := if Qlt_bool b a then b else a.

(** A Python dict with string keys, in insertion order. *)
Definition dict := list (string * Z).

Fixpoint dict_set (k : string) (v : Z) (d : dict) : dict :=
  match d with
  | [] => [(k, v)]
  | (k', v') :: d' =>
      if String.eqb k k' then (k, v) :: d' else (k', v') :: dict_set k v d'
  end.

(** The fields of the [details] dict. *)
Record CalcDetails := mkCalcDetails {
  total_logged_hours : Q;
  is_full_workday : bool;
  d_login_time : Z;
  d_logout_time : Z;
  mandatory_breaks : dict;
  bio_breaks : dict;
  adjustments : dict;
  overlap_handling : OverlapReport;
  total_break_minutes : Z;
  final_work_hours : Q
}.

Inductive Details :=
| DetailsError (error : string)
| DetailsCalc (d : CalcDetails).

(** Loop variables of [for br in breaks]. *)
Record Acc := mkAcc {
  total_break_min : Z; b1_min : Z; b2_min : Z; bio_min : Z;
  acc_mandatory : dict; acc_bio : dict
}.

Definition acc_step (a : Acc) (br : BreakEntry) : Acc :=
  let dur := match duration_minutes br with Some d => d | None => 0 end in
  let total := total_break_min a + dur in
  match break_type br with
  | BREAK1 => mkAcc total dur (b2_min a) (bio_min a)
                (dict_set "break1" dur (acc_mandatory a)) (acc_bio a)
  | BREAK2 => mkAcc total (b1_min a) dur (bio_min a)
                (dict_set "break2" dur (acc_mandatory a)) (acc_bio a)
  | BIO => mkAcc total (b1_min a) (b2_min a) (bio_min a + dur) (acc_mandatory a)
             (dict_set ("bio_break_" ++ string_of_nat (S (List.length (acc_bio a))))%string
                dur (acc_bio a))
  end.

Definition acc0 : Acc := mkAcc 0 0 0 0 [] [].

(** [_adj(actual, label)]: the returned adjustment and the new adjustments. *)
Definition adj (actual : Z) (label : string) (adjs : dict) : Z * dict :=
  if MANDATORY_BREAK_MINUTES <? actual then
    let excess := actual - MANDATORY_BREAK_MINUTES in
    (- excess, dict_set (label ++ "_excess") (- excess) adjs)
  else if (0 <? actual) && (actual <? MANDATORY_BREAK_MINUTES) then
    let unused := MANDATORY_BREAK_MINUTES - actual in
    (unused, dict_set (label ++ "_unused") unused adjs)
  else (0, adjs).

(** Full-day branch: [(final_hours, penalty_min, adjustments)]. *)
Definition full_day (a : Acc) : Q * Z * dict :=
  let base_hours := inject_Z STANDARD_WORK_HOURS in
  let '(r1, adjs1) := adj (b1_min a) "break1" [] in
  let '(r2, adjs2) := adj (b2_min a) "break2" adjs1 in
  let bonus_min := 0 + r1 + r2 in
  let '(penalty_min, adjs3) :=
    if MAX_BIO_BREAK_MINUTES <? bio_min a then
      let excess := bio_min a - MAX_BIO_BREAK_MINUTES in
      (0 + excess, dict_set "bio_excess" (- excess) adjs2)
    else (0, adjs2) in
  let final_hours :=
    py_max 0 (py_min base_hours
      (base_hours - inject_Z penalty_min / 60 + inject_Z bonus_min / 60)) in
  (final_hours, penalty_min, adjs3).

(** One [if ... > cap: extra = ...; penalty_min += extra] of the partial day. *)
Definition excess_penalty (actual cap : Z) (label : string) (pa : Z * dict) : Z * dict :=
  let '(p, adjs) := pa in
  if cap <? actual then
    let extra := actual - cap in
    (p + extra, dict_set label (- extra) adjs)
  else (p, adjs).

(** Partial-day branch: [(final_hours, penalty_min, adjustments)]. *)
Definition partial_day (total_logged : Q) (a : Acc) : Q * Z * dict :=
  let productive := (total_logged - inject_Z (total_break_min a) / 60)%Q in
  let '(penalty_min, adjs) :=
    excess_penalty (bio_min a) MAX_BIO_BREAK_MINUTES "bio_excess_penalty"
      (excess_penalty (b2_min a) MANDATORY_BREAK_MINUTES "break2_excess_penalty"
        (excess_penalty (b1_min a) MANDATORY_BREAK_MINUTES "break1_excess_penalty"
          (0, []))) in
  (py_max 0 (productive - inject_Z penalty_min / 60), penalty_min, adjs).

Definition calculate_work_hours (te : TimeEntry) : Q * Details * string :=
  match login_time te with
  | None => (0%Q, DetailsError "No login time recorded", "Absent"%string)
  | Some login =>
      let logout :=
        match logout_time te with
        | Some t => t
        | None => replace_hms login DEFAULT_LOGOUT_HOUR
        end in
      let scenario0 :=
        match logout_time te with
        | Some _ => "Calculation"%string
        | None => "Emp forgot to logout"%string
        end in
      let total_logged := (inject_Z (logout - login) / inject_Z US_PER_HOUR)%Q in
      let is_full_day :=
        Qlt_bool (Qabs (total_logged - inject_Z STANDARD_WORK_HOURS)) (1 # 2) in
      let '(bs, ov) := handle_overlapping_breaks (breaks te) in
      let a := fold_left acc_step bs acc0 in
      let '(final_hours, penalty_min, adjs) :=
        if is_full_day then full_day a else partial_day total_logged a in
      let scenario1 := if penalty_min =? 0 then scenario0 else "Emp exceeds break"%string in
      let scenario :=
        if has_overlaps ov then (scenario1 ++ " with overlapping breaks")%string
        else scenario1 in
      (final_hours,
       DetailsCalc (mkCalcDetails total_logged is_full_day login logout
                      (acc_mandatory a) (acc_bio a) adjs ov
                      (total_break_min a) final_hours),
       scenario)
  end.

(* ------------------------------------------------------------------ *)
(** ** app/services/session_manager.py: [create_or_update_session] *)

(** The keyword arguments the callers pass. *)
Inductive Update :=
| UpdLogin (login : option Z)
| UpdLogout (logout : option Z)
| UpdBreaks (value : list BreakEntry).

(** [setattr(session, key, value)]. *)
Definition set_field (s : TimeEntry) (u : Update) : TimeEntry :=
  match u with
  | UpdLogin v => mkTimeEntry (emp_id s) v (logout_time s) (breaks s) (timezone s)
  | UpdLogout v => mkTimeEntry (emp_id s) (login_time s) v (breaks s) (timezone s)
  | UpdBreaks v => mkTimeEntry (emp_id s) (login_time s) (logout_time s) v (timezone s)
  end.

Definition with_breaks (s : TimeEntry) (bs : list BreakEntry) : TimeEntry :=
  mkTimeEntry (emp_id s) (login_time s) (logout_time s) bs (timezone s).

Definition with_timezone (s : TimeEntry) (tz : string) : TimeEntry :=
  mkTimeEntry (emp_id s) (login_time s) (logout_time s) (breaks s) tz.

(** [for i, existing_break in enumerate(existing_session.breaks)]: replace the
    first entry of the same type, append when none is found. *)
Fixpoint replace_or_append (nb : BreakEntry) (bs : list BreakEntry) : list BreakEntry :=
  match bs with
  | [] => [nb]
  | b :: bs' =>
      if BreakType_eqb (break_type b) (break_type nb) then nb :: bs'
      else b :: replace_or_append nb bs'
  end.

(** The body of [for new_break in value]. *)
Definition merge_break (bs : list BreakEntry) (nb : BreakEntry) : list BreakEntry :=
  if String.eqb (BreakType_value (break_type nb)) "bio" then bs ++ [nb]
  else replace_or_append nb bs.

(** The body of [for key, value in kwargs.items()] on an existing session. *)
Definition apply_update (s : TimeEntry) (u : Update) : TimeEntry :=
  match u with
  | UpdBreaks ((_ :: _) as value) => with_breaks s (fold_left merge_break value (breaks s))
  | _ => set_field s u
  end.

(** The store holds at most one session for [(emp_id, today)]: [store] is
    that entry, and the result is what [repo] holds afterwards.  [tz] is the
    resolved [timezone_str] ("UTC" when no request is given); location and
    IP metadata are not modelled. *)
Definition create_or_update_session (store : option TimeEntry) (emp : string)
    (tz : string) (kwargs : list Update) : TimeEntry :=
  match store with
  | Some existing => with_timezone (fold_left apply_update kwargs existing) tz
  | None => fold_left set_field kwargs (mkTimeEntry emp None None [] tz)
  end.

(* ------------------------------------------------------------------ *)
(** ** app/routers/tracking.py: [record_break] *)

(** A [BreakRequest] whose timestamps are already the UTC values
    [start_utc] / [end_utc] computed by [_to_utc_naive]. *)
Record BreakRequest := mkBreakRequest {
  req_emp_id : string;
  req_break_type : BreakType;
  req_start_time : option Z;
  req_end_time : option Z;
  req_duration_minutes : option Z
}.

Inductive BreakResponse :=
| Resp404 (detail : string)
| RespValidationError
| Resp400 (detail : string)
| RespOverlapWarning (warning : option string)
| RespRecorded (break_type_ : BreakType) (duration : option Z).

(** [user_tz = session.timezone or "UTC"]. *)
Definition session_tz (session : TimeEntry) : string :=
  if String.eqb (timezone session) "" then "UTC"%string else timezone session.

(** [duration], with the auto duration when both timestamps are given. *)
Definition request_duration (req : BreakRequest) : option Z :=
  match req_start_time req, req_end_time req, req_duration_minutes req with
  | Some s, Some e, None => Some (int_minutes (e - s))
  | _, _, d => d
  end.

(** [break_entry = BreakEntry(...)] of [record_break]. *)
Definition request_entry (user_tz : string) (req : BreakRequest) : option BreakEntry :=
  construct_BreakEntry (req_break_type req) (req_start_time req) (req_end_time req)
    (request_duration req) user_tz.

(** [record_break] against the session store of [(emp_id, today)]; [tz] is the
    timezone the merger resolves from the request.  The result pairs the
    response with the store afterwards. *)
Definition record_break (store : option TimeEntry) (tz : string) (req : BreakRequest)
    : BreakResponse * option TimeEntry :=
  match store with
  | None => (Resp404 "No active session found", store)
  | Some session =>
      match request_entry (session_tz session) req with
      | None => (RespValidationError, store)
      | Some break_entry =>
          if negb (String.eqb (BreakType_value (break_type break_entry)) "bio")
             && existsb (fun b => BreakType_eqb (break_type b) (break_type break_entry))
                  (breaks session)
          then (Resp400 (BreakType_value (break_type break_entry)
                         ++ " already recorded for today")%string, store)
          else
            let '(has_overlap, details) :=
              check_overlapping_breaks (breaks session ++ [break_entry]) in
            if has_overlap then (RespOverlapWarning details, store)
            else (RespRecorded (req_break_type req) (request_duration req),
                  Some (create_or_update_session store (req_emp_id req) tz
                          [UpdBreaks [break_entry]]))
      end
  end.

(** [validate_break_timing]: the read-only preview of a break. *)
Inductive ValidateResponse :=
| Validate404 (detail : string)
| ValidateValidationError
| ValidateResult (valid overlap_detected : bool) (overlap_details : option string).

Definition validate_break_timing (store : option TimeEntry) (req : BreakRequest)
    : ValidateResponse :=
  match store with
  | None => Validate404 "No active session found"
  | Some session =>
      match construct_BreakEntry (req_break_type req) (req_start_time req)
              (req_end_time req) (req_duration_minutes req) "UTC" with
      | None => ValidateValidationError
      | Some temp_entry =>
          let '(overlaps, details) :=
            check_overlapping_breaks (breaks session ++ [temp_entry]) in
          ValidateResult (negb overlaps) overlaps details
      end
  end.

(** [login]: [login_time] is the UTC value [_to_utc_naive] produced; the
    result is what the store holds afterwards. *)
Definition login (store : option TimeEntry) (tz emp : string) (login_time_ : Z) : TimeEntry :=
  create_or_update_session store emp tz [UpdLogin (Some login_time_)].

Inductive LogoutResponse :=
| Logout404 (detail : string)
| LogoutOk (logout_time_ : Z).

(** [logout], with the UTC logout time. *)
Definition logout (store : option TimeEntry) (tz emp : string) (logout_time_ : Z)
    : LogoutResponse * option TimeEntry :=
  match store with
  | None => (Logout404 "No active session found", store)
  | Some _ =>
      (LogoutOk logout_time_,
       Some (create_or_update_session store emp tz [UpdLogout (Some logout_time_)]))
  end.

(** ["{:02d}"]. *)
Definition pad2 (z : Z) : string :=
  if (0 <=? z) && (z <? 10) then ("0" ++ string_of_Z z)%string else string_of_Z z.

(** The [hh:mm formatting] of [calculate_hours]. *)
Definition format_work_hours (hrs : Q) : string :=
  if Qeq_bool hrs 0 then "Absent"%string
  else
    let total := py_round (hrs * 60) in
    let h := total / 60 in
    let m := total mod 60 in
    if m =? 0 then (string_of_Z h ++ " hrs")%string
    else (string_of_Z h ++ ":" ++ pad2 m ++ "hrs")%string.

(** One element of [breaks_info]: type, duration text, start and end. *)
Definition break_info (b : BreakEntry) : BreakType * string * option Z * option Z :=
  (break_type b,
   match duration_minutes b with
   | Some d => if d =? 0 then "Null"%string else (string_of_Z d ++ "min")%string
   | None => "Null"%string
   end,
   start_time b, end_time b).

Record TimeCalculationResponse := mkTimeCalculationResponse {
  resp_emp_id : string;
  resp_scenario : string;
  resp_login_time : option Z;
  resp_logout_time : option Z;
  resp_breaks : list (BreakType * string * option Z * option Z);
  resp_total_work_hours : string;
  resp_calculation_details : Details
}.

(** [calculate_hours]: [None] is the 404 answer. *)
Definition calculate_hours (store : option TimeEntry) (emp : string)
    : option TimeCalculationResponse :=
  match store with
  | None => None
  | Some session =>
      let '(hrs, details, scenario) := calculate_work_hours session in
      Some (mkTimeCalculationResponse emp scenario (login_time session)
              (logout_time session) (map break_info (breaks session))
              (format_work_hours hrs) details)
  end.

(* ------------------------------------------------------------------ *)
(** ** Sample sessions *)

Definition at_minute (m : Z) : Z := m * US_PER_MINUTE.

(** A duration-only break, as recorded without timestamps. *)
Definition untimed (k : BreakType) (d : Z) : BreakEntry := mkBreakEntry k None None (Some d) "UTC".

(** A full day 09:00 - 18:00 with Break1 = 35, Break2 = 40 and Bio = 30. *)
Definition excess_day : TimeEntry :=
  mkTimeEntry "E1" (Some (at_minute (9 * 60))) (Some (at_minute (18 * 60)))
    [untimed BREAK1 35; untimed BREAK2 40; untimed BIO 30] "UTC".

(** A session holding one Bio break 10:00 - 10:30. *)
Definition bio_day : TimeEntry :=
  mkTimeEntry "E1" (Some (at_minute (9 * 60))) None
    [mkBreakEntry BIO (Some (at_minute 600)) (Some (at_minute 630)) (Some 30) "UTC"] "UTC".

(** A Bio break 10:15 - 10:45, overlapping the one of [bio_day]. *)
Definition overlapping_bio_request : BreakRequest :=
  mkBreakRequest "E1" BIO (Some (at_minute 615)) (Some (at_minute 645)) None.

(** Login at 19:00, no logout, one Bio break entered with duration -120. *)
Definition negative_bio_day : TimeEntry :=
  mkTimeEntry "E1" (Some (at_minute (19 * 60))) None [untimed BIO (-120)] "UTC".

(** Timed breaks 10:00 - 10:30 and 10:20 - 10:40 around an untimed one. *)
Definition witness_breaks : list BreakEntry :=
  [mkBreakEntry BREAK1 (Some (at_minute 600)) (Some (at_minute 630)) None "UTC";
   untimed BIO 10;
   mkBreakEntry BIO (Some (at_minute 620)) (Some (at_minute 640)) None "UTC"].

(** The invariant [BreakEntry.validate_end_time] establishes. *)
Definition valid_entry (b : BreakEntry) : Prop :=
  match start_time b, end_time b with
  | Some s, Some e => s < e
  | _, _ => True
  end.

(** [x] comes before [y] in [l]. *)
Fixpoint before (x y : Timed) (l : list Timed) : Prop :=
  match l with
  | [] => False
  | z :: l' => (z = x /\ In y l') \/ before x y l'
  end.

(** Durations are non-negative (as derived from valid timestamps). *)
Definition duration_nonneg (b : BreakEntry) : Prop :=
  match duration_minutes b with Some d => 0 <= d | None => True end.

(** Number of entries of kind [k] in a break list. *)
Definition count_type (k : BreakType) (bs : list BreakEntry) : nat :=
  List.length (filter (fun b => BreakType_eqb (break_type b) k) bs).

(** A request whose [BreakEntry] passes validation. *)
Definition well_formed_request (req : BreakRequest) : bool :=
  match req_start_time req, req_end_time req with
  | Some s, Some e => s <? e
  | _, _ => true
  end.

(** Two breaks that are both timed and not disjoint. *)
Definition conflict (b1 b2 : BreakEntry) : bool :=
  match start_time b1, end_time b1, start_time b2, end_time b2 with
  | Some s1, Some e1, Some s2, Some e2 => negb ((e1 <=? s2) || (e2 <=? s1))
  | _, _, _, _ => false
  end.

(** Some pair of positions [i < j] is in conflict. *)
Fixpoint any_pair (l : list BreakEntry) : bool :=
  match l with
  | [] => false
  | x :: r => existsb (conflict x) r || any_pair r
  end.

(** A break without both timestamps. *)
Definition untimed_entry (b : BreakEntry) : Prop :=
  start_time b = None \/ end_time b = None.

(** The fields [check_overlapping_breaks] reads. *)
Definition overlap_key (b : BreakEntry) : BreakType * option Z * option Z :=
  (break_type b, start_time b, end_time b).

(** The loop variables after [for br in breaks]. *)
Definition break_totals (te : TimeEntry) : Acc := fold_left acc_step (breaks te) acc0.

(** [br.duration_minutes or 0]. *)
Definition dur_or_0 (b : BreakEntry) : Z :=
  match duration_minutes b with Some d => d | None => 0 end.

Definition sum_Z (l : list Z) : Z := fold_right Z.add 0 l.

(** The last entry of kind [k]. *)
Definition last_of_type (k : BreakType) (bs : list BreakEntry) : option BreakEntry :=
  find (fun b => BreakType_eqb (break_type b) k) (rev bs).

(** Two breaks with the same kind and duration (timestamps may differ). *)
Definition same_kind_duration (a b : BreakEntry) : Prop :=
  break_type a = break_type b /\ duration_minutes a = duration_minutes b.

(** [total_logged_hours] of a session with login [login]. *)
Definition logged_hours (te : TimeEntry) (login : Z) : Q :=
  (inject_Z (match logout_time te with
             | Some t => t
             | None => replace_hms login DEFAULT_LOGOUT_HOUR
             end - login) / inject_Z US_PER_HOUR)%Q.

(** [is_full_day] of a session with login [login]. *)
Definition full_workday (te : TimeEntry) (login : Z) : bool :=
  Qlt_bool (Qabs (logged_hours te login - inject_Z STANDARD_WORK_HOURS)) (1 # 2).

(** A full day 09:00 - 18:00 with Break1 = 20, Break2 = 30 and Bio = 10. *)
Definition full_day_within_limits_witness_day : TimeEntry :=
  mkTimeEntry "E1" (Some (at_minute (9 * 60))) (Some (at_minute (18 * 60)))
    [untimed BREAK1 20; untimed BREAK2 30; untimed BIO 10] "UTC".

(** A half day 09:00 - 13:00 with Break1 = 40 and Bio = 10. *)
Definition half_day : TimeEntry :=
  mkTimeEntry "E1" (Some (at_minute (9 * 60))) (Some (at_minute (13 * 60)))
    [untimed BREAK1 40; untimed BIO 10] "UTC".

(* ------------------------------------------------------------------ *)
(** ** app/services/geo_timezone.py: [get_client_ip], [get_timezone_from_ip] *)

(** [str.isspace] on the Latin-1 characters header values decode to. *)
Definition is_py_space (c : ascii) : bool :=
  let n := nat_of_ascii c in
  ((9 <=? n)%nat && (n <=? 13)%nat) || ((28 <=? n)%nat && (n <=? 32)%nat)
  || (n =? 133)%nat || (n =? 160)%nat.

Fixpoint lstrip (s : string) : string :=
  match s with
  | EmptyString => EmptyString
  | String c r => if is_py_space c then lstrip r else s
  end.

Fixpoint rstrip (s : string) : string :=
  match s with
  | EmptyString => EmptyString
  | String c r =>
      match rstrip r with
      | EmptyString => if is_py_space c then EmptyString else String c EmptyString
      | r' => String c r'
      end
  end.

(** [s.strip()]. *)
Definition strip (s : string) : string := rstrip (lstrip s).

(** [s.split(",")[0]]. *)
Fixpoint upto_comma (s : string) : string :=
  match s with
  | EmptyString => EmptyString
  | String c r => if Ascii.eqb c "," then EmptyString else String c (upto_comma r)
  end.

(** The parts of the request [get_client_ip] reads: the two headers and
    [request.client.host] ([None] when [request.client] is [None]). *)
Record ClientRequest := mkClientRequest {
  hdr_x_forwarded_for : option string;
  hdr_x_real_ip : option string;
  client_host : option string
}.

(** A missing header reads as the empty string: both are falsy. *)
Definition header_value (h : option string) : string :=
  match h with Some v => v | None => EmptyString end.

Definition get_client_ip (request : ClientRequest) : string :=
  let forwarded_for := header_value (hdr_x_forwarded_for request) in
  if negb (String.eqb forwarded_for "") then strip (upto_comma forwarded_for)
  else
    let real_ip := header_value (hdr_x_real_ip request) in
    if negb (String.eqb real_ip "") then real_ip
    else
      let client_host := match client_host request with
                         | Some h => h
                         | None => "127.0.0.1"%string
                         end in
      if existsb (String.eqb client_host) ["127.0.0.1"; "::1"; "localhost"]%string
         || String.prefix "192.168." client_host || String.prefix "10." client_host
         || String.prefix "172." client_host
      then "203.192.1.1"%string
      else client_host.

Section GeoTimezone.

(** [pytz.timezone] succeeds on the names of its database. *)
Variable pytz_known : string -> bool.

(** The location fields copied from the answer into [location_info]. *)
Variable Location : Type.

(** The ip-api.com answer: [status], [timezone] and the location fields. *)
Record IpApiData := mkIpApiData {
  api_status : option string;
  api_timezone : option string;
  api_location : Location
}.

(** [_get_timezone_from_ipapi]; the answer is [None] when the request or
    its JSON decoding raised. *)
Definition get_timezone_from_ipapi (answer : option IpApiData) : option (string * Location) :=
  match answer with
  | None => None
  | Some data =>
      match api_status data, api_timezone data with
      | Some status, Some timezone_str =>
          if String.eqb status "success" && negb (String.eqb timezone_str "") then
            if pytz_known timezone_str then Some (timezone_str, api_location data)
            else None
          else None
      | _, _ => None
      end
  end.

Definition get_timezone_from_ip (default_timezone : string) (answer : option IpApiData)
    : string * option Location :=
  match get_timezone_from_ipapi answer with
  | Some (tz, loc) => (tz, Some loc)
  | None => (default_timezone, None)
  end.

End GeoTimezone.

(** Edges of a string: its first and last characters. *)
Definition first_char_not_space (s : string) : Prop :=
  forall c r, s = String c r -> is_py_space c = false.

Definition last_char_not_space (s : string) : Prop :=
  forall p c, s = (p ++ String c EmptyString)%string -> is_py_space c = false.


(* ------------------------------------------------------------------ *)
(** * Properties *)

(** ** Break types and the merge loop *)

Lemma BreakType_eqb_true (a b : BreakType) : BreakType_eqb a b = true <-> a = b.
Proof. destruct a, b; simpl; split; congruence. Qed.

Lemma BreakType_eqb_refl (a : BreakType) : BreakType_eqb a a = true.
Proof. destruct a; reflexivity. Qed.

Lemma count_type_app (k : BreakType) (l1 l2 : list BreakEntry) :
  count_type k (l1 ++ l2) = (count_type k l1 + count_type k l2)%nat.
Proof. unfold count_type. rewrite filter_app, length_app. reflexivity. Qed.

Lemma replace_or_append_first (nb b : BreakEntry) (pre post : list BreakEntry) :
  Forall (fun x => break_type x <> break_type nb) pre ->
  break_type b = break_type nb ->
  replace_or_append nb (pre ++ b :: post) = pre ++ nb :: post.
Proof.
  intros Hpre Hb. induction Hpre as [|x pre Hx Hpre IH]; simpl.
  - rewrite Hb, BreakType_eqb_refl. reflexivity.
  - destruct (BreakType_eqb (break_type x) (break_type nb)) eqn:E.
    + apply BreakType_eqb_true in E. contradiction.
    + rewrite IH. reflexivity.
Qed.

Lemma replace_or_append_none (nb : BreakEntry) (bs : list BreakEntry) :
  Forall (fun x => break_type x <> break_type nb) bs ->
  replace_or_append nb bs = bs ++ [nb].
Proof.
  intros H. induction H as [|x bs Hx H IH]; simpl; [reflexivity|].
  destruct (BreakType_eqb (break_type x) (break_type nb)) eqn:E.
  - apply BreakType_eqb_true in E. contradiction.
  - rewrite IH. reflexivity.
Qed.

Lemma count_replace_or_append (k : BreakType) (nb : BreakEntry) (bs : list BreakEntry) :
  count_type k (replace_or_append nb bs) =
    if BreakType_eqb (break_type nb) k then Nat.max 1 (count_type k bs)
    else count_type k bs.
Proof.
  unfold count_type. induction bs as [|b bs IH]; simpl.
  - destruct (BreakType_eqb (break_type nb) k); reflexivity.
  - destruct (BreakType_eqb (break_type b) (break_type nb)) eqn:E.
    + apply BreakType_eqb_true in E. simpl. rewrite E.
      destruct (BreakType_eqb (break_type nb) k); simpl; lia.
    + simpl. destruct (BreakType_eqb (break_type b) k) eqn:Ek.
      * apply BreakType_eqb_true in Ek. subst k.
        destruct (break_type b), (break_type nb); simpl in *; try discriminate.
        all: simpl; rewrite IH; simpl; lia.
      * exact IH.
Qed.

Lemma merge_single (s : TimeEntry) (emp tz : string) (nb : BreakEntry) :
  create_or_update_session (Some s) emp tz [UpdBreaks [nb]] =
    with_timezone (with_breaks s (merge_break (breaks s) nb)) tz.
Proof. reflexivity. Qed.

(** C3: folding one break into an existing session appends a Bio break,
    replaces the first entry of the same kind for Break1 / Break2 (appends
    when there is none); so at most one Break1 and one Break2 stay at most
    one, while every Bio break adds one Bio entry. *)
Theorem C3_merge_rule (s : TimeEntry) (emp tz : string) (nb : BreakEntry) :
  let bs' := breaks (create_or_update_session (Some s) emp tz [UpdBreaks [nb]]) in
  (break_type nb = BIO -> bs' = breaks s ++ [nb]) /\
  (break_type nb <> BIO ->
     forall pre b post, breaks s = pre ++ b :: post ->
     break_type b = break_type nb ->
     Forall (fun x => break_type x <> break_type nb) pre ->
     bs' = pre ++ nb :: post) /\
  (break_type nb <> BIO ->
     Forall (fun x => break_type x <> break_type nb) (breaks s) ->
     bs' = breaks s ++ [nb]) /\
  ((count_type BREAK1 (breaks s) <= 1 -> count_type BREAK1 bs' <= 1) /\
   (count_type BREAK2 (breaks s) <= 1 -> count_type BREAK2 bs' <= 1) /\
   count_type BIO bs' =
     count_type BIO (breaks s) + (if BreakType_eqb (break_type nb) BIO then 1 else 0))%nat.
Proof.
  cbv zeta. rewrite merge_single. simpl breaks. unfold merge_break.
  destruct (break_type nb) eqn:Ek; simpl String.eqb; cbv iota.
  - repeat split; intros; try discriminate.
    + rewrite H0. apply replace_or_append_first; rewrite Ek; assumption.
    + apply replace_or_append_none. rewrite Ek. exact H0.
    + rewrite count_replace_or_append, Ek. cbn [BreakType_eqb]. lia.
    + rewrite count_replace_or_append, Ek. cbn [BreakType_eqb]. exact H.
    + rewrite count_replace_or_append, Ek. cbn [BreakType_eqb]. lia.
  - repeat split; intros; try discriminate.
    + rewrite H0. apply replace_or_append_first; rewrite Ek; assumption.
    + apply replace_or_append_none. rewrite Ek. exact H0.
    + rewrite count_replace_or_append, Ek. cbn [BreakType_eqb]. exact H.
    + rewrite count_replace_or_append, Ek. cbn [BreakType_eqb]. lia.
    + rewrite count_replace_or_append, Ek. cbn [BreakType_eqb]. lia.
  - repeat split; intros; try congruence;
      rewrite count_type_app; unfold count_type at 2; simpl; rewrite Ek; simpl; lia.
Qed.

(** C1 (code defect): in a full-day session with Break1 = 35, Break2 = 40
    and Bio = 30 the final hours are 8.75, but the scenario stays
    "Calculation": the full-day branch adds the mandatory-break excess to
    [bonus_min] as a negative amount, [penalty_min] stays 0, and the label
    is never set to "Emp exceeds break". *)
Theorem C1_full_day_excess_label :
  fst (fst (calculate_work_hours excess_day)) == 35 # 4 /\
  snd (calculate_work_hours excess_day) = "Calculation"%string.
Proof. vm_compute. split; reflexivity. Qed.

(** C2 (code defect): a break overlapping an existing timed break of the
    session is answered with an overlap warning and is not recorded: the
    store is left as it was, without the new break. *)
Theorem C2_overlap_not_recorded :
  record_break (Some bio_day) "UTC" overlapping_bio_request =
    (RespOverlapWarning (Some "bio(1) overlaps bio(2) for 15 min"%string), Some bio_day) /\
  List.length (breaks bio_day) = 1%nat.
Proof. vm_compute. split; reflexivity. Qed.

(** C5: a session without login time yields 0 hours, the error detail and
    the scenario "Absent", whatever its logout time and breaks. *)
Theorem C5_absent (te : TimeEntry) (H : login_time te = None) :
  calculate_work_hours te =
    (0%Q, DetailsError "No login time recorded", "Absent"%string).
Proof. unfold calculate_work_hours. rewrite H. reflexivity. Qed.

Lemma C5_absent_witness :
  calculate_work_hours
    (mkTimeEntry "E1" None (Some (at_minute 600)) [untimed BIO 90] "UTC") =
    (0%Q, DetailsError "No login time recorded", "Absent"%string).
Proof. apply C5_absent. reflexivity. Defined.

(** C7 (counterexample): a 110-second timed break without explicit
    duration is stored with 1 minute, not with round(110 / 60) = 2. *)
Lemma C7_counterexample :
  exists b, construct_BreakEntry BIO (Some 0) (Some (110 * US_PER_SECOND)) None "UTC" = Some b /\
            duration_minutes b <> Some (py_round (110 # 60)).
Proof. eexists. split; [reflexivity | vm_compute; discriminate]. Qed.

(** C7 (amended): a timed break with end after start and no explicit
    duration stores the whole minutes of [end - start], truncated. *)
Theorem C7_duration_truncated (k : BreakType) (s e : Z) (tz : string) (H : s < e) :
  construct_BreakEntry k (Some s) (Some e) None tz =
    Some (mkBreakEntry k (Some s) (Some e) (Some ((e - s) / US_PER_MINUTE)) tz).
Proof.
  unfold construct_BreakEntry, validate_end_time, calculate_duration, int_minutes.
  replace (e <=? s) with false by (symmetry; apply Z.leb_gt; lia).
  rewrite Z.quot_div_nonneg by (unfold US_PER_MINUTE, US_PER_SECOND; lia).
  reflexivity.
Qed.

Lemma C7_duration_truncated_witness :
  0 < 110 * US_PER_SECOND /\
  construct_BreakEntry BIO (Some 0) (Some (110 * US_PER_SECOND)) None "UTC" =
    Some (mkBreakEntry BIO (Some 0) (Some (110 * US_PER_SECOND))
            (Some ((110 * US_PER_SECOND - 0) / US_PER_MINUTE)) "UTC").
Proof.
  split; [vm_compute; reflexivity | apply C7_duration_truncated; vm_compute; reflexivity].
Defined.

(** C8: with both timestamps present, construction fails exactly when
    end <= start and succeeds otherwise; [record_break] given such a
    request records nothing and leaves the store unchanged. *)
Theorem C8_end_after_start :
  (forall k s e d tz, construct_BreakEntry k (Some s) (Some e) d tz = None <-> e <= s) /\
  (forall k s e d tz, s < e -> exists b, construct_BreakEntry k (Some s) (Some e) d tz = Some b) /\
  (forall store tz req s e,
     req_start_time req = Some s -> req_end_time req = Some e -> e <= s ->
     snd (record_break store tz req) = store /\
     forall k d, fst (record_break store tz req) <> RespRecorded k d).
Proof.
  split; [|split].
  - intros k s e d tz. unfold construct_BreakEntry, validate_end_time.
    destruct (Z.leb_spec e s); split; intro; first [lia | discriminate | reflexivity].
  - intros k s e d tz H. unfold construct_BreakEntry, validate_end_time.
    replace (e <=? s) with false by (symmetry; apply Z.leb_gt; lia). eauto.
  - intros store tz req s e Hs He Hle.
    destruct store as [session|]; [|split; [reflexivity | discriminate]].
    unfold record_break.
    assert (Hv : request_entry (session_tz session) req = None).
    { unfold request_entry, construct_BreakEntry, validate_end_time. rewrite Hs, He.
      replace (e <=? s) with true by (symmetry; apply Z.leb_le; lia). reflexivity. }
    rewrite Hv. split; [reflexivity | discriminate].
Qed.

(** ** The public break endpoint *)

Lemma request_entry_type (tz : string) (req : BreakRequest) (b : BreakEntry) :
  request_entry tz req = Some b -> break_type b = req_break_type req.
Proof.
  unfold request_entry, construct_BreakEntry.
  destruct (validate_end_time _ _); intros H; inversion H; reflexivity.
Qed.

Lemma request_entry_ok (tz : string) (req : BreakRequest) :
  well_formed_request req = true -> exists b, request_entry tz req = Some b.
Proof.
  unfold well_formed_request, request_entry, construct_BreakEntry, validate_end_time.
  destruct (req_start_time req), (req_end_time req); intros H; eauto.
  replace (z0 <=? z) with false by (symmetry; apply Z.leb_gt, Z.ltb_lt; exact H). eauto.
Qed.

(** C9: a well-formed Break1 / Break2 request whose kind the session already
    holds gets the 400 answer and leaves the store as it was; a request that
    is recorded always appends its break (for Break1 / Break2 the session held
    none of that kind), so the replacing branch of the merger is never taken;
    a Bio request is recorded whatever Bio entries the session holds, as long
    as it overlaps nothing. *)
Theorem C9_mandatory_break_once :
  (forall session tz req,
     well_formed_request req = true ->
     req_break_type req <> BIO ->
     In (req_break_type req) (map break_type (breaks session)) ->
     exists msg, record_break (Some session) tz req = (Resp400 msg, Some session)) /\
  (forall store tz req k d store',
     record_break store tz req = (RespRecorded k d, store') ->
     exists session nb, store = Some session /\ break_type nb = k /\
       store' = Some (with_timezone (with_breaks session (breaks session ++ [nb])) tz) /\
       (k <> BIO -> ~ In k (map break_type (breaks session)))) /\
  (forall session tz req nb,
     req_break_type req = BIO ->
     request_entry (session_tz session) req = Some nb ->
     fst (check_overlapping_breaks (breaks session ++ [nb])) = false ->
     exists d, record_break (Some session) tz req =
       (RespRecorded BIO d, Some (with_timezone (with_breaks session (breaks session ++ [nb])) tz))).
Proof.
  split; [|split].
  - intros session tz req Hwf Hk Hin.
    destruct (request_entry_ok (session_tz session) req Hwf) as [b Hb].
    pose proof (request_entry_type _ _ _ Hb) as Ht.
    unfold record_break. rewrite Hb.
    replace (negb (String.eqb (BreakType_value (break_type b)) "bio")) with true
      by (rewrite Ht; destruct (req_break_type req); simpl; congruence).
    replace (existsb (fun x => BreakType_eqb (break_type x) (break_type b)) (breaks session))
      with true.
    + eexists. reflexivity.
    + symmetry. apply existsb_exists. apply in_map_iff in Hin.
      destruct Hin as [x [Hx Hinx]]. exists x. split; [exact Hinx|].
      apply BreakType_eqb_true. congruence.
  - intros store tz req k d store' H.
    destruct store as [session|]; [|discriminate].
    unfold record_break in H.
    destruct (request_entry (session_tz session) req) as [b|] eqn:Hb; [|discriminate].
    pose proof (request_entry_type _ _ _ Hb) as Ht.
    destruct (negb (String.eqb (BreakType_value (break_type b)) "bio")
              && existsb (fun x => BreakType_eqb (break_type x) (break_type b))
                   (breaks session)) eqn:Hc; [discriminate|].
    destruct (check_overlapping_breaks (breaks session ++ [b])) as [[|] det];
      [discriminate|].
    inversion H; subst k d store'. clear H.
    unfold merge_break. rewrite <- Ht.
    exists session, b. split; [reflexivity|]. split; [reflexivity|].
    assert (Hno : break_type b <> BIO ->
                  Forall (fun x => break_type x <> break_type b) (breaks session)).
    { intros Hbio. apply Forall_forall. intros x Hx Hxt.
      assert (Hex : existsb (fun x => BreakType_eqb (break_type x) (break_type b))
                      (breaks session) = true)
        by (apply existsb_exists; exists x; split; [exact Hx|];
            apply BreakType_eqb_true; exact Hxt).
      rewrite Hex, andb_true_r in Hc.
      destruct (break_type b); simpl in Hc; congruence. }
    split.
    + destruct (break_type b) eqn:Eb; cbn [BreakType_value String.eqb];
        try reflexivity; rewrite replace_or_append_none; try reflexivity;
        rewrite Eb; apply Hno; discriminate.
    + intros Hbio Hin. apply in_map_iff in Hin. destruct Hin as [x [Hx Hinx]].
      specialize (Hno Hbio). rewrite Forall_forall in Hno.
      exact (Hno x Hinx Hx).
  - intros session tz req nb Hk Hb Hov.
    pose proof (request_entry_type _ _ _ Hb) as Ht.
    unfold record_break. rewrite Hb, Ht, Hk. cbn [BreakType_value String.eqb negb andb].
    destruct (check_overlapping_breaks (breaks session ++ [nb])) as [has det].
    simpl in Hov. subst has.
    eexists. rewrite merge_single. unfold merge_break. rewrite Ht, Hk. reflexivity.
Qed.

(** ** Arithmetic of the calculator *)

Lemma Qlt_bool_iff (x y : Q) : Qlt_bool x y = true <-> (x < y)%Q.
Proof.
  unfold Qlt_bool. rewrite negb_true_iff. split; intros H.
  - apply Qnot_le_lt. intros Hle. apply Qle_bool_iff in Hle. congruence.
  - destruct (Qle_bool y x) eqn:E; [|reflexivity].
    apply Qle_bool_iff in E. exfalso. exact (Qlt_not_le _ _ H E).
Qed.

Lemma py_max_l (a b : Q) : (a <= py_max a b)%Q.
Proof.
  unfold py_max. destruct (Qlt_bool a b) eqn:E; [|apply Qle_refl].
  apply Qlt_bool_iff in E. apply Qlt_le_weak. exact E.
Qed.

Lemma py_max_le (a b c : Q) : (a <= c)%Q -> (b <= c)%Q -> (py_max a b <= c)%Q.
Proof. unfold py_max. destruct (Qlt_bool a b); auto. Qed.

Lemma py_max_not_lt (a b : Q) : (b <= a)%Q -> py_max a b = a.
Proof.
  unfold py_max. intros H. destruct (Qlt_bool a b) eqn:E; [|reflexivity].
  apply Qlt_bool_iff in E. exfalso. exact (Qlt_not_le _ _ E H).
Qed.

Lemma py_min_le (a b : Q) : (py_min a b <= a)%Q.
Proof.
  unfold py_min. destruct (Qlt_bool b a) eqn:E; [|apply Qle_refl].
  apply Qlt_bool_iff in E. apply Qlt_le_weak. exact E.
Qed.

Lemma handle_overlapping_breaks_fst (bs : list BreakEntry) :
  fst (handle_overlapping_breaks bs) = bs.
Proof. unfold handle_overlapping_breaks. destruct (check_overlapping_breaks bs). reflexivity. Qed.

Lemma full_day_final (a : Acc) :
  exists x, fst (fst (full_day a)) = py_max 0 (py_min (inject_Z STANDARD_WORK_HOURS) x).
Proof.
  unfold full_day.
  destruct (adj (b1_min a) "break1" []) as [r1 adjs1].
  destruct (adj (b2_min a) "break2" adjs1) as [r2 adjs2].
  destruct (if MAX_BIO_BREAK_MINUTES <? bio_min a then _ else _) as [p adjs3].
  eexists. reflexivity.
Qed.

Lemma full_day_bounds (a : Acc) :
  (0 <= fst (fst (full_day a)) <= inject_Z STANDARD_WORK_HOURS)%Q.
Proof.
  destruct (full_day_final a) as [x Hx]. rewrite Hx. split.
  - apply py_max_l.
  - apply py_max_le; [unfold STANDARD_WORK_HOURS; vm_compute; discriminate | apply py_min_le].
Qed.

(** C4: with a login time, the session is a full workday exactly when
    |total_logged_hours - 9| < 0.5, and then the final hours lie in [0, 9]
    whatever the credited bonuses. *)
Theorem C4_full_day_bounded (te : TimeEntry) (login : Z) (H : login_time te = Some login) :
  let logout := match logout_time te with
                | Some t => t
                | None => replace_hms login DEFAULT_LOGOUT_HOUR
                end in
  let hours := (inject_Z (logout - login) / inject_Z US_PER_HOUR)%Q in
  exists d,
    snd (fst (calculate_work_hours te)) = DetailsCalc d /\
    total_logged_hours d = hours /\
    (is_full_workday d = true <-> (Qabs (hours - inject_Z STANDARD_WORK_HOURS) < 1 # 2)%Q) /\
    (is_full_workday d = true ->
       (0 <= fst (fst (calculate_work_hours te)) <= inject_Z STANDARD_WORK_HOURS)%Q).
Proof.
  cbv zeta. unfold calculate_work_hours. rewrite H. cbv zeta.
  destruct (handle_overlapping_breaks (breaks te)) as [bs ov].
  destruct (Qlt_bool _ (1 # 2)) eqn:Hf.
  - pose proof (full_day_bounds (fold_left acc_step bs acc0)) as Hb.
    destruct (full_day (fold_left acc_step bs acc0)) as [[f p] adjs].
    eexists. split; [reflexivity|]. split; [reflexivity|].
    cbn [fst snd is_full_workday].
    split; [split; [intros _; apply Qlt_bool_iff; exact Hf | reflexivity]|].
    intros _. exact Hb.
  - destruct (partial_day _ (fold_left acc_step bs acc0)) as [[f p] adjs].
    eexists. split; [reflexivity|]. split; [reflexivity|].
    cbn [fst snd is_full_workday].
    split; [|discriminate]. split; [discriminate|].
    intros Hlt. apply Qlt_bool_iff in Hlt. congruence.
Qed.

Lemma C4_full_day_bounded_witness :
  login_time excess_day = Some (at_minute (9 * 60)) /\
  (0 <= fst (fst (calculate_work_hours excess_day)) <= inject_Z STANDARD_WORK_HOURS)%Q.
Proof.
  split; [reflexivity|].
  destruct (C4_full_day_bounded excess_day (at_minute (9 * 60)) eq_refl)
    as [d [Hd [_ [Hiff Hb]]]].
  apply Hb. apply Hiff. vm_compute. reflexivity.
Defined.

Lemma replace_hms_not_after (t : Z) :
  DEFAULT_LOGOUT_HOUR * US_PER_HOUR <= t mod DAY_US ->
  replace_hms t DEFAULT_LOGOUT_HOUR <= t.
Proof.
  unfold replace_hms, DEFAULT_LOGOUT_HOUR, US_PER_HOUR, DAY_US, US_PER_SECOND. intros H.
  rewrite <- (Z.mod_mod_divide t (86400 * 1000000) 1000000)
    by (exists 86400; reflexivity).
  pose proof (Z.div_mod t (86400 * 1000000)) as Ht.
  pose proof (Z.mod_pos_bound t (86400 * 1000000)) as Hr.
  set (r := t mod (86400 * 1000000)) in *.
  pose proof (Z.div_mod r 1000000) as Hr2.
  pose proof (Z.mod_pos_bound r 1000000) as Hr3.
  assert (64800 <= r / 1000000).
  { apply Z.div_le_lower_bound; lia. }
  lia.
Qed.

Lemma fold_total_nonneg (bs : list BreakEntry) (a : Acc) :
  Forall duration_nonneg bs -> 0 <= total_break_min a ->
  0 <= total_break_min (fold_left acc_step bs a).
Proof.
  revert a. induction bs as [|b bs IH]; intros a Hbs Ha; simpl; [exact Ha|].
  inversion Hbs as [|? ? Hb Hrest]; subst. apply IH; [exact Hrest|].
  unfold acc_step, duration_nonneg in *.
  destruct (duration_minutes b); destruct (break_type b); simpl; lia.
Qed.

Lemma excess_penalty_nonneg (actual cap : Z) (label : string) (pa : Z * dict) :
  0 <= fst pa -> 0 <= fst (excess_penalty actual cap label pa).
Proof.
  destruct pa as [p adjs]. unfold excess_penalty. simpl. intros H.
  destruct (cap <? actual) eqn:E; simpl; [apply Z.ltb_lt in E|]; lia.
Qed.

Lemma partial_day_final (h : Q) (a : Acc) :
  exists pen, 0 <= pen /\
    fst (fst (partial_day h a)) =
      py_max 0 ((h - inject_Z (total_break_min a) / 60) - inject_Z pen / 60)%Q.
Proof.
  unfold partial_day.
  set (pa := excess_penalty (bio_min a) _ _ _).
  assert (Hp : 0 <= fst pa).
  { unfold pa. repeat apply excess_penalty_nonneg. simpl. lia. }
  destruct pa as [pen adjs]. exists pen. split; [exact Hp | reflexivity].
Qed.

Lemma div_hour_nonpos (x : Z) : x <= 0 -> (inject_Z x / inject_Z US_PER_HOUR <= 0)%Q.
Proof.
  intros H. apply Qle_shift_div_r; [unfold US_PER_HOUR, US_PER_SECOND; reflexivity|].
  rewrite Qmult_0_l. change 0%Q with (inject_Z 0). rewrite <- Zle_Qle. exact H.
Qed.

Lemma div_60_nonneg (x : Z) : 0 <= x -> (0 <= inject_Z x / 60)%Q.
Proof.
  intros H. apply Qle_shift_div_l; [reflexivity|].
  rewrite Qmult_0_l. change 0%Q with (inject_Z 0). rewrite <- Zle_Qle. exact H.
Qed.

(** C10 (amended): with a login at or after 18:00 and no logout, the
    defaulted logout is not after the login, the logged hours are <= 0, the
    day is partial and the final hours are >= 0; they are exactly 0 when no
    break carries a negative duration. *)
Theorem C10_late_login (te : TimeEntry) (login : Z)
    (Hl : login_time te = Some login) (Ho : logout_time te = None)
    (Ht : DEFAULT_LOGOUT_HOUR * US_PER_HOUR <= login mod DAY_US) :
  replace_hms login DEFAULT_LOGOUT_HOUR <= login /\
  exists d,
    snd (fst (calculate_work_hours te)) = DetailsCalc d /\
    (total_logged_hours d <= 0)%Q /\
    is_full_workday d = false /\
    (0 <= fst (fst (calculate_work_hours te)))%Q /\
    (Forall duration_nonneg (breaks te) -> fst (fst (calculate_work_hours te)) = 0%Q).
Proof.
  pose proof (replace_hms_not_after login Ht) as Hle.
  split; [exact Hle|].
  unfold calculate_work_hours. rewrite Hl, Ho. cbv zeta.
  set (h := (inject_Z (replace_hms login DEFAULT_LOGOUT_HOUR - login)
             / inject_Z US_PER_HOUR)%Q).
  assert (Hh : (h <= 0)%Q) by (apply div_hour_nonpos; lia).
  assert (Hnf : Qlt_bool (Qabs (h - inject_Z STANDARD_WORK_HOURS)) (1 # 2) = false).
  { destruct (Qlt_bool _ _) eqn:E; [|reflexivity].
    apply Qlt_bool_iff in E. rewrite Qabs_neg in E.
    - unfold STANDARD_WORK_HOURS, inject_Z in E. lra.
    - unfold STANDARD_WORK_HOURS, inject_Z. lra. }
  rewrite Hnf.
  pose proof (handle_overlapping_breaks_fst (breaks te)) as Hfst.
  destruct (handle_overlapping_breaks (breaks te)) as [bs ov].
  simpl in Hfst. subst bs.
  destruct (partial_day_final h (fold_left acc_step (breaks te) acc0)) as [pen [Hpen Hpf]].
  destruct (partial_day h (fold_left acc_step (breaks te) acc0)) as [[f p] adjs].
  cbn [fst] in Hpf. subst f.
  eexists. split; [reflexivity|]. cbn [fst snd total_logged_hours is_full_workday].
  split; [exact Hh|]. split; [reflexivity|]. split; [apply py_max_l|].
  intros Hnn. apply py_max_not_lt.
  pose proof (fold_total_nonneg (breaks te) acc0 Hnn (Z.le_refl 0)) as Htot.
  pose proof (div_60_nonneg _ Htot) as Hu.
  pose proof (div_60_nonneg _ Hpen) as Hv.
  revert Hu Hv. generalize (inject_Z (total_break_min (fold_left acc_step (breaks te) acc0)) / 60)%Q.
  generalize (inject_Z pen / 60)%Q. intros v u Hu Hv. lra.
Qed.

(** C10 (counterexample): a late login with a Bio break of explicit
    duration -120 (an unvalidated [int]) yields 1 hour, not 0. *)
Lemma C10_counterexample :
  login_time negative_bio_day = Some (at_minute (19 * 60)) /\
  logout_time negative_bio_day = None /\
  DEFAULT_LOGOUT_HOUR * US_PER_HOUR <= at_minute (19 * 60) mod DAY_US /\
  fst (fst (calculate_work_hours negative_bio_day)) == 1 /\
  ~ (fst (fst (calculate_work_hours negative_bio_day)) == 0).
Proof.
  split; [reflexivity|]. split; [reflexivity|]. split; [vm_compute; discriminate|].
  split; [vm_compute; reflexivity | vm_compute; discriminate].
Qed.

Lemma C10_late_login_witness :
  fst (fst (calculate_work_hours
    (mkTimeEntry "E1" (Some (at_minute (19 * 60))) None [untimed BIO 20] "UTC"))) = 0%Q.
Proof.
  destruct (C10_late_login
              (mkTimeEntry "E1" (Some (at_minute (19 * 60))) None [untimed BIO 20] "UTC")
              (at_minute (19 * 60)) eq_refl eq_refl)
    as [_ [d [_ [_ [_ [_ H]]]]]].
  - vm_compute. discriminate.
  - apply H. constructor; [unfold duration_nonneg; simpl; lia | constructor].
Defined.

(** ** The overlap detector *)

Lemma overlaps_with_in (o : Overlap) (x : Timed) (rest : list Timed) :
  In o (overlaps_with x rest) <->
  exists y, In y rest /\ disjoint x y = false /\ o = overlap_of x y.
Proof.
  induction rest as [|y rest IH]; simpl.
  - split; [contradiction | intros [y [[] _]]].
  - destruct (disjoint x y) eqn:E; simpl; rewrite IH; split.
    + intros [z [Hz [Hd Ho]]]. exists z. auto.
    + intros [z [[<-|Hz] [Hd Ho]]]; [congruence | exists z; auto].
    + intros [Ho | [z [Hz [Hd Ho]]]]; [exists y; auto | exists z; auto].
    + intros [z [[<-|Hz] [Hd Ho]]]; [left; congruence | right; exists z; auto].
Qed.

Lemma overlaps_all_in (o : Overlap) (l : list Timed) :
  In o (overlaps_all l) <->
  exists x y, before x y l /\ disjoint x y = false /\ o = overlap_of x y.
Proof.
  induction l as [|x l IH]; simpl.
  - split; [contradiction | intros [? [? [[] _]]]].
  - rewrite in_app_iff, overlaps_with_in, IH. split.
    + intros [[y [Hy [Hd Ho]]] | [x' [y [Hb [Hd Ho]]]]].
      * exists x, y. auto.
      * exists x', y. auto.
    + intros [x' [y [[[<- Hy] | Hb] [Hd Ho]]]].
      * left. exists y. auto.
      * right. exists x', y. auto.
Qed.

Lemma in_timed_from (n : nat) (l : list BreakEntry) (t : Timed) :
  In t (timed_from n l) <->
  (n <= t_idx t)%nat /\
  exists b, nth_error l (t_idx t - n) = Some b /\ break_type b = t_type t /\
            start_time b = Some (t_start t) /\ end_time b = Some (t_end t).
Proof.
  revert n. induction l as [|b l IH]; intros n; simpl.
  - split; [contradiction|]. intros [_ [b [Hb _]]]. destruct (t_idx t - n)%nat; discriminate.
  - assert (Htail : In t (timed_from (S n) l) <->
                    (S n <= t_idx t)%nat /\
                    exists b', nth_error (b :: l) (t_idx t - n) = Some b' /\
                      break_type b' = t_type t /\ start_time b' = Some (t_start t) /\
                      end_time b' = Some (t_end t)).
    { rewrite IH. split; intros [Hn Hb]; split; try exact Hn;
        replace (t_idx t - n)%nat with (S (t_idx t - S n)) in * by lia; exact Hb. }
    destruct (start_time b) as [s|] eqn:Hs; [destruct (end_time b) as [e|] eqn:He|].
    + simpl. rewrite Htail. split.
      * intros [<- | [Hn Hb]]; [|split; [lia | exact Hb]].
        split; [simpl; lia|]. exists b. simpl. rewrite Nat.sub_diag. auto.
      * intros [Hn [b' [Hb' Ht]]].
        destruct (Nat.eq_dec (t_idx t) n) as [Heq|Hne].
        -- left. rewrite Heq, Nat.sub_diag in Hb'. simpl in Hb'. inversion Hb'; subst b'.
           destruct t as [i k s' e']; simpl in *. destruct Ht as [Hk [Hs' He']].
           subst. congruence.
        -- right. split; [lia|]. exists b'. auto.
    + rewrite Htail. split.
      * intros [Hn Hb]. split; [lia | exact Hb].
      * intros [Hn [b' [Hb' Ht]]]. split; [|exists b'; auto].
        destruct (Nat.eq_dec (t_idx t) n) as [Heq|Hne]; [|lia].
        rewrite Heq, Nat.sub_diag in Hb'. simpl in Hb'. inversion Hb'; subst b'. intuition congruence.
    + rewrite Htail. split.
      * intros [Hn Hb]. split; [lia | exact Hb].
      * intros [Hn [b' [Hb' Ht]]]. split; [|exists b'; auto].
        destruct (Nat.eq_dec (t_idx t) n) as [Heq|Hne]; [|lia].
        rewrite Heq, Nat.sub_diag in Hb'. simpl in Hb'. inversion Hb'; subst b'. intuition congruence.
Qed.

Lemma timed_from_idx (n : nat) (l : list BreakEntry) (t : Timed) :
  In t (timed_from n l) -> (n <= t_idx t)%nat.
Proof. rewrite in_timed_from. tauto. Qed.

Lemma before_timed_from (n : nat) (l : list BreakEntry) (x y : Timed) :
  before x y (timed_from n l) <->
  In x (timed_from n l) /\ In y (timed_from n l) /\ (t_idx x < t_idx y)%nat.
Proof.
  revert n. induction l as [|b l IH]; intros n; simpl.
  - split; [contradiction | intros [[] _]].
  - destruct (start_time b) as [s|]; [destruct (end_time b) as [e|]|]; try apply IH.
    simpl. rewrite IH. split.
    + intros [[<- Hy] | [Hx [Hy Hlt]]].
      * pose proof (timed_from_idx _ _ _ Hy).
        split; [left; reflexivity|]. split; [right; exact Hy|]. simpl. lia.
      * auto.
    + intros [[<- | Hx] [[<- | Hy] Hlt]]; simpl in *.
      * lia.
      * auto.
      * pose proof (timed_from_idx _ _ _ Hx). simpl in *. lia.
      * auto.
Qed.

Lemma overlap_width_pos (si ei sj ej : Z) :
  si < ei -> sj < ej -> ~ (ei <= sj \/ ej <= si) ->
  (0 < inject_Z (Z.min ei ej - Z.max si sj) / inject_Z US_PER_MINUTE)%Q.
Proof.
  intros H1 H2 H3. apply Qlt_shift_div_l; [reflexivity|].
  rewrite Qmult_0_l. change 0%Q with (inject_Z 0). rewrite <- Zlt_Qlt. lia.
Qed.

(** C6: the detector reports exactly the pairs [i < j] of timed breaks
    (start and end present) that are not disjoint; each report carries both
    kinds, the 1-based positions [i + 1] and [j + 1] in the input and the
    width min(end_i, end_j) - max(start_i, start_j) in minutes, which is
    positive for valid breaks; the message joins the rendered reports. *)
Theorem C6_overlap_detector (bs : list BreakEntry) (Hv : Forall valid_entry bs) :
  (forall o, In o (overlapping bs) ->
     exists i j bi bj si ei sj ej,
       (i < j)%nat /\ nth_error bs i = Some bi /\ nth_error bs j = Some bj /\
       start_time bi = Some si /\ end_time bi = Some ei /\
       start_time bj = Some sj /\ end_time bj = Some ej /\
       ~ (ei <= sj \/ ej <= si) /\
       o = mkOverlap (break_type bi) (S i) (break_type bj) (S j)
             (inject_Z (Z.min ei ej - Z.max si sj) / inject_Z US_PER_MINUTE)%Q /\
       (0 < ov_min o)%Q) /\
  (forall i j bi bj si ei sj ej,
     (i < j)%nat -> nth_error bs i = Some bi -> nth_error bs j = Some bj ->
     start_time bi = Some si -> end_time bi = Some ei ->
     start_time bj = Some sj -> end_time bj = Some ej ->
     ~ (ei <= sj \/ ej <= si) ->
     In (mkOverlap (break_type bi) (S i) (break_type bj) (S j)
           (inject_Z (Z.min ei ej - Z.max si sj) / inject_Z US_PER_MINUTE)%Q)
        (overlapping bs)) /\
  check_overlapping_breaks bs =
    match overlapping bs with
    | [] => (false, None)
    | _ => (true, Some (join "; " (map render_overlap (overlapping bs))))
    end.
Proof.
  split; [|split].
  - intros o Ho. unfold overlapping in Ho. apply overlaps_all_in in Ho.
    destruct Ho as [x [y [Hb [Hd ->]]]].
    apply before_timed_from in Hb. destruct Hb as [Hx [Hy Hlt]].
    apply in_timed_from in Hx. destruct Hx as [_ [bi [Hbi [Hki [Hsi Hei]]]]].
    apply in_timed_from in Hy. destruct Hy as [_ [bj [Hbj [Hkj [Hsj Hej]]]]].
    rewrite Nat.sub_0_r in Hbi, Hbj.
    assert (Hnd : ~ (t_end x <= t_start y \/ t_end y <= t_start x)).
    { unfold disjoint in Hd. apply orb_false_iff in Hd. destruct Hd as [H1 H2].
      apply Z.leb_gt in H1. apply Z.leb_gt in H2. lia. }
    exists (t_idx x), (t_idx y), bi, bj, (t_start x), (t_end x), (t_start y), (t_end y).
    do 8 (split; [assumption|]).
    split; [unfold overlap_of; rewrite Hki, Hkj; reflexivity|].
    rewrite Forall_forall in Hv.
    pose proof (Hv bi (nth_error_In _ _ Hbi)) as Vi.
    pose proof (Hv bj (nth_error_In _ _ Hbj)) as Vj.
    unfold valid_entry in Vi, Vj. rewrite Hsi, Hei in Vi. rewrite Hsj, Hej in Vj.
    apply overlap_width_pos; assumption.
  - intros i j bi bj si ei sj ej Hlt Hbi Hbj Hsi Hei Hsj Hej Hnd.
    unfold overlapping. apply overlaps_all_in.
    exists (mkTimed i (break_type bi) si ei), (mkTimed j (break_type bj) sj ej).
    split; [|split].
    + apply before_timed_from. simpl. split; [|split; [|exact Hlt]].
      * apply in_timed_from. simpl. split; [lia|]. exists bi.
        rewrite Nat.sub_0_r. auto.
      * apply in_timed_from. simpl. split; [lia|]. exists bj.
        rewrite Nat.sub_0_r. auto.
    + unfold disjoint. simpl. apply orb_false_iff.
      split; apply Z.leb_gt; lia.
    + reflexivity.
  - unfold check_overlapping_breaks. destruct (overlapping bs); reflexivity.
Qed.

Lemma C6_overlap_detector_witness :
  Forall valid_entry witness_breaks /\
  overlapping witness_breaks <> [] /\
  (forall o, In o (overlapping witness_breaks) -> (0 < ov_min o)%Q).
Proof.
  assert (Hv : Forall valid_entry witness_breaks).
  { repeat constructor; unfold valid_entry; simpl; try exact I; reflexivity. }
  split; [exact Hv|]. split; [vm_compute; discriminate|].
  intros o Ho.
  destruct (proj1 (C6_overlap_detector witness_breaks Hv) o Ho)
    as [i [j [bi [bj [si [ei [sj [ej H]]]]]]]].
  apply H.
Defined.

(** ** Extra properties: the overlap detector *)

Lemma conflict_sym (a b : BreakEntry) : conflict a b = conflict b a.
Proof.
  unfold conflict.
  destruct (start_time a), (end_time a), (start_time b), (end_time b); try reflexivity.
  f_equal. apply orb_comm.
Qed.

Lemma conflict_untimed (a b : BreakEntry) : untimed_entry a -> conflict a b = false.
Proof. unfold conflict. intros [H|H]; rewrite H; [reflexivity|]. destruct (start_time a); reflexivity. Qed.

Lemma overlaps_with_timed_nil (n m : nat) (b : BreakEntry) (s e : Z) (l : list BreakEntry) :
  start_time b = Some s -> end_time b = Some e ->
  overlaps_with (mkTimed n (break_type b) s e) (timed_from m l) = [] <->
  existsb (conflict b) l = false.
Proof.
  intros Hs He. revert m. induction l as [|c l IH]; intros m; simpl; [tauto|].
  unfold conflict at 1. rewrite Hs, He.
  destruct (start_time c) as [s2|]; [destruct (end_time c) as [e2|]|]; simpl; try apply IH.
  unfold disjoint. simpl.
  destruct ((e <=? s2) || (e2 <=? s)); simpl; [apply IH | split; discriminate].
Qed.

Lemma existsb_conflict_untimed (b : BreakEntry) (l : list BreakEntry) :
  untimed_entry b -> existsb (conflict b) l = false.
Proof.
  intros Hb. induction l as [|c l IH]; simpl; [reflexivity|].
  rewrite conflict_untimed by exact Hb. exact IH.
Qed.

Lemma overlaps_all_nil (n : nat) (l : list BreakEntry) :
  overlaps_all (timed_from n l) = [] <-> any_pair l = false.
Proof.
  revert n. induction l as [|b l IH]; intros n; simpl; [tauto|].
  destruct (start_time b) as [s|] eqn:Hs; [destruct (end_time b) as [e|] eqn:He|].
  - simpl. rewrite orb_false_iff.
    pose proof (overlaps_with_timed_nil n (S n) b s e l Hs He) as Hw.
    pose proof (IH (S n)) as Ha. split.
    + intros H. apply app_eq_nil in H. tauto.
    + intros [H1 H2]. apply Hw in H1. apply Ha in H2. rewrite H1, H2. reflexivity.
  - rewrite IH, existsb_conflict_untimed by (right; exact He). tauto.
  - rewrite IH, existsb_conflict_untimed by (left; exact Hs). tauto.
Qed.

Lemma check_any_pair (bs : list BreakEntry) :
  fst (check_overlapping_breaks bs) = any_pair bs.
Proof.
  unfold check_overlapping_breaks, overlapping.
  pose proof (overlaps_all_nil 0 bs) as H.
  destruct (overlaps_all (timed_from 0 bs)); simpl.
  - symmetry. apply H. reflexivity.
  - destruct (any_pair bs); [reflexivity|]. exfalso.
    assert (Hc : o :: l = []) by (apply H; reflexivity). discriminate.
Qed.

Lemma existsb_perm {A} (f : A -> bool) (l l' : list A) :
  Permutation l l' -> existsb f l = existsb f l'.
Proof.
  induction 1; simpl; try congruence.
  rewrite !orb_assoc, (orb_comm (f y)). reflexivity.
Qed.

Lemma any_pair_perm (l l' : list BreakEntry) :
  Permutation l l' -> any_pair l = any_pair l'.
Proof.
  induction 1 as [| x l l' Hp IH | x y l | l l' l'' H1 IH1 H2 IH2]; simpl.
  - reflexivity.
  - rewrite (existsb_perm _ _ _ Hp), IH. reflexivity.
  - rewrite (conflict_sym y x).
    destruct (conflict x y), (existsb (conflict y) l), (existsb (conflict x) l),
      (any_pair l); reflexivity.
  - congruence.
Qed.

(** Whether [check_overlapping_breaks] finds an overlap does not depend on
    the order of the breaks. *)
Theorem overlap_detection_order_independent (bs bs' : list BreakEntry)
    (H : Permutation bs bs') :
  fst (check_overlapping_breaks bs) = fst (check_overlapping_breaks bs').
Proof. rewrite !check_any_pair. apply any_pair_perm. exact H. Qed.

Lemma overlap_detection_order_independent_witness :
  Permutation witness_breaks (rev witness_breaks) /\
  fst (check_overlapping_breaks (rev witness_breaks)) = true.
Proof.
  assert (Hp : Permutation witness_breaks (rev witness_breaks)) by apply Permutation_rev.
  split; [exact Hp|].
  rewrite <- (overlap_detection_order_independent _ _ Hp). vm_compute. reflexivity.
Defined.

(** Inserting a break without both timestamps anywhere in the list never
    changes whether an overlap is found. *)
Theorem untimed_break_never_overlaps (l1 l2 : list BreakEntry) (b : BreakEntry)
    (Hb : untimed_entry b) :
  fst (check_overlapping_breaks (l1 ++ b :: l2)) = fst (check_overlapping_breaks (l1 ++ l2)).
Proof.
  rewrite !check_any_pair, (any_pair_perm _ _ (Permutation_sym (Permutation_middle l1 l2 b))).
  simpl. rewrite existsb_conflict_untimed by exact Hb. reflexivity.
Qed.

Lemma untimed_break_never_overlaps_witness :
  untimed_entry (untimed BIO 10) /\
  fst (check_overlapping_breaks ([] ++ untimed BIO 10 :: breaks bio_day)) = false.
Proof.
  assert (Hb : untimed_entry (untimed BIO 10)) by (left; reflexivity).
  split; [exact Hb|].
  rewrite (untimed_break_never_overlaps [] (breaks bio_day) _ Hb). reflexivity.
Defined.

Lemma timed_from_key (n : nat) (l l' : list BreakEntry) :
  Forall2 (fun a b => overlap_key a = overlap_key b) l l' ->
  timed_from n l = timed_from n l'.
Proof.
  intros H. revert n. induction H as [|a b l l' Hab H IH]; intros n; simpl; [reflexivity|].
  unfold overlap_key in Hab. inversion Hab as [[Hk Hs He]].
  rewrite Hk, Hs, He. destruct (start_time b), (end_time b); rewrite ?IH; reflexivity.
Qed.

Lemma check_key (l l' : list BreakEntry) :
  Forall2 (fun a b => overlap_key a = overlap_key b) l l' ->
  check_overlapping_breaks l = check_overlapping_breaks l'.
Proof.
  intros H. unfold check_overlapping_breaks, overlapping. rewrite (timed_from_key 0 l l' H).
  reflexivity.
Qed.

Lemma Forall2_key_refl (l : list BreakEntry) :
  Forall2 (fun a b => overlap_key a = overlap_key b) l l.
Proof. induction l; constructor; auto. Qed.

Lemma guard_passes (session : TimeEntry) (k : BreakType) :
  k = BIO \/ ~ In k (map break_type (breaks session)) ->
  negb (String.eqb (BreakType_value k) "bio")
    && existsb (fun b => BreakType_eqb (break_type b) k) (breaks session) = false.
Proof.
  intros [->|Hn]; [reflexivity|].
  destruct (existsb _ _) eqn:E; [|apply andb_false_r].
  apply existsb_exists in E. destruct E as [x [Hx Hxk]].
  apply BreakType_eqb_true in Hxk. exfalso. apply Hn. apply in_map_iff. eauto.
Qed.

Lemma merge_guard_appends (session : TimeEntry) (b : BreakEntry) :
  break_type b = BIO \/ ~ In (break_type b) (map break_type (breaks session)) ->
  merge_break (breaks session) b = breaks session ++ [b].
Proof.
  intros H. unfold merge_break.
  destruct (break_type b) eqn:Eb; cbn [BreakType_value String.eqb]; try reflexivity;
    (destruct H as [H|H]; [discriminate|]);
    apply replace_or_append_none; apply Forall_forall; intros x Hx Hxt;
    apply H; rewrite Eb in Hxt; rewrite <- Hxt; apply in_map; exact Hx.
Qed.

(** The preview [validate_break_timing] answers as [record_break] does for
    a request that passes the one-per-day guard: the same validation
    failure, the same overlap message (then nothing is stored), or no
    overlap and the break is recorded. *)
Theorem validate_break_matches_record (session : TimeEntry) (tz : string) (req : BreakRequest)
    (Hguard : req_break_type req = BIO \/
              ~ In (req_break_type req) (map break_type (breaks session))) :
  match validate_break_timing (Some session) req with
  | Validate404 _ => False
  | ValidateValidationError =>
      record_break (Some session) tz req = (RespValidationError, Some session)
  | ValidateResult valid true det =>
      valid = false /\
      record_break (Some session) tz req = (RespOverlapWarning det, Some session)
  | ValidateResult valid false _ =>
      valid = true /\
      exists s', record_break (Some session) tz req =
                 (RespRecorded (req_break_type req) (request_duration req), Some s')
  end.
Proof.
  unfold validate_break_timing, record_break, request_entry, construct_BreakEntry.
  destruct (validate_end_time (req_start_time req) (req_end_time req)) as [e|]; [|reflexivity].
  cbn [break_type]. rewrite (guard_passes session _ Hguard).
  set (bv := mkBreakEntry (req_break_type req) (req_start_time req) e
               (calculate_duration (req_duration_minutes req) (req_start_time req) e) "UTC").
  set (br := mkBreakEntry (req_break_type req) (req_start_time req) e
               (calculate_duration (request_duration req) (req_start_time req) e)
               (session_tz session)).
  rewrite (check_key (breaks session ++ [br]) (breaks session ++ [bv]))
    by (apply Forall2_app; [apply Forall2_key_refl | constructor; [reflexivity | constructor]]).
  destruct (check_overlapping_breaks (breaks session ++ [bv])) as [[|] det]; simpl.
  - split; reflexivity.
  - split; [reflexivity|]. eexists. reflexivity.
Qed.

Lemma validate_break_matches_record_witness :
  (BIO = BIO \/ ~ In BIO (map break_type (breaks bio_day))) /\
  record_break (Some bio_day) "UTC" overlapping_bio_request =
    (RespOverlapWarning (Some "bio(1) overlaps bio(2) for 15 min"%string), Some bio_day).
Proof.
  assert (Hg : req_break_type overlapping_bio_request = BIO \/
               ~ In (req_break_type overlapping_bio_request) (map break_type (breaks bio_day)))
    by (left; reflexivity).
  split; [exact Hg|].
  pose proof (validate_break_matches_record bio_day "UTC" overlapping_bio_request Hg) as H.
  vm_compute in H. destruct H as [_ H]. exact H.
Defined.

(** A break request without both timestamps, passing the one-per-day guard,
    on a session whose breaks do not overlap, is always recorded and
    appended at the end of the session's breaks. *)
Theorem duration_only_break_recorded (session : TimeEntry) (tz : string) (req : BreakRequest)
    (Hu : req_start_time req = None \/ req_end_time req = None)
    (Hguard : req_break_type req = BIO \/
              ~ In (req_break_type req) (map break_type (breaks session)))
    (Hclean : fst (check_overlapping_breaks (breaks session)) = false) :
  exists b,
    request_entry (session_tz session) req = Some b /\
    record_break (Some session) tz req =
      (RespRecorded (req_break_type req) (request_duration req),
       Some (with_timezone (with_breaks session (breaks session ++ [b])) tz)).
Proof.
  assert (Hb : exists b, request_entry (session_tz session) req = Some b /\ untimed_entry b).
  { unfold request_entry, construct_BreakEntry, validate_end_time, untimed_entry.
    destruct Hu as [H|H]; rewrite H.
    - destruct (req_end_time req); eexists; split; try reflexivity; left; reflexivity.
    - eexists; split; [reflexivity | right; reflexivity]. }
  destruct Hb as [b [Hb Hub]]. exists b. split; [exact Hb|].
  pose proof (request_entry_type _ _ _ Hb) as Ht.
  unfold record_break. rewrite Hb, Ht, (guard_passes session _ Hguard).
  assert (Hno : fst (check_overlapping_breaks (breaks session ++ [b])) = false).
  { rewrite <- Hclean, !check_any_pair.
    rewrite <- (any_pair_perm _ _ (Permutation_cons_append (breaks session) b)).
    simpl. rewrite existsb_conflict_untimed by exact Hub. reflexivity. }
  destruct (check_overlapping_breaks (breaks session ++ [b])) as [has det].
  simpl in Hno. subst has.
  rewrite merge_single, merge_guard_appends by (rewrite Ht; exact Hguard). reflexivity.
Qed.

Lemma duration_only_break_recorded_witness :
  fst (record_break (Some bio_day) "UTC" (mkBreakRequest "E1" BIO None None (Some 5))) =
    RespRecorded BIO (Some 5).
Proof.
  destruct (duration_only_break_recorded bio_day "UTC" (mkBreakRequest "E1" BIO None None (Some 5))
              (or_introl eq_refl) (or_introl eq_refl) eq_refl) as [b [_ H]].
  rewrite H. reflexivity.
Defined.

(** ** Extra properties: the calculator *)

Lemma calculate_final_hours (te : TimeEntry) :
  fst (fst (calculate_work_hours te)) =
    match login_time te with
    | None => 0%Q
    | Some login =>
        let logout := match logout_time te with
                      | Some t => t
                      | None => replace_hms login DEFAULT_LOGOUT_HOUR
                      end in
        let h := (inject_Z (logout - login) / inject_Z US_PER_HOUR)%Q in
        fst (fst (if Qlt_bool (Qabs (h - inject_Z STANDARD_WORK_HOURS)) (1 # 2)
                  then full_day (break_totals te) else partial_day h (break_totals te)))
    end.
Proof.
  unfold calculate_work_hours, break_totals. destruct (login_time te) as [login|]; [|reflexivity].
  cbv zeta.
  pose proof (handle_overlapping_breaks_fst (breaks te)) as Hf.
  destruct (handle_overlapping_breaks (breaks te)) as [bs ov]. simpl in Hf. subst bs.
  destruct (if Qlt_bool _ _ then _ else _) as [[f p] adjs]. reflexivity.
Qed.

(** [calculate_work_hours] never returns negative hours. *)
Theorem final_hours_nonneg (te : TimeEntry) :
  (0 <= fst (fst (calculate_work_hours te)))%Q.
Proof.
  rewrite calculate_final_hours. destruct (login_time te) as [login|]; [|apply Qle_refl].
  cbv zeta. destruct (Qlt_bool _ _).
  - apply full_day_bounds.
  - destruct (partial_day_final
      (inject_Z (match logout_time te with
                 | Some t => t | None => replace_hms login DEFAULT_LOGOUT_HOUR end - login)
        / inject_Z US_PER_HOUR)%Q (break_totals te)) as [pen [_ ->]].
    apply py_max_l.
Qed.

Lemma acc_step_same (a : Acc) (b b' : BreakEntry) :
  same_kind_duration b b' -> acc_step a b = acc_step a b'.
Proof. intros [Hk Hd]. unfold acc_step. rewrite Hk, Hd. reflexivity. Qed.

Lemma fold_acc_same (bs bs' : list BreakEntry) (a : Acc) :
  Forall2 same_kind_duration bs bs' -> fold_left acc_step bs a = fold_left acc_step bs' a.
Proof.
  intros H. revert a. induction H as [|b b' bs bs' Hb H IH]; intros a; simpl; [reflexivity|].
  rewrite (acc_step_same a b b' Hb). apply IH.
Qed.

(** The final hours depend on the breaks' kinds and durations only: moving
    break timestamps (making breaks overlap or not) never changes them. *)
Theorem final_hours_ignore_break_times (te te' : TimeEntry)
    (Hl : login_time te = login_time te') (Ho : logout_time te = logout_time te')
    (Hb : Forall2 same_kind_duration (breaks te) (breaks te')) :
  fst (fst (calculate_work_hours te)) = fst (fst (calculate_work_hours te')).
Proof.
  rewrite !calculate_final_hours, Hl, Ho. unfold break_totals.
  rewrite (fold_acc_same _ _ acc0 Hb). reflexivity.
Qed.

Lemma final_hours_ignore_break_times_witness :
  Forall2 same_kind_duration (breaks bio_day)
    [mkBreakEntry BIO (Some (at_minute 700)) (Some (at_minute 730)) (Some 30) "UTC"] /\
  fst (fst (calculate_work_hours bio_day)) =
    fst (fst (calculate_work_hours
      (mkTimeEntry "E1" (login_time bio_day) (logout_time bio_day)
        [mkBreakEntry BIO (Some (at_minute 700)) (Some (at_minute 730)) (Some 30) "UTC"] "UTC"))).
Proof.
  assert (H : Forall2 same_kind_duration (breaks bio_day)
    [mkBreakEntry BIO (Some (at_minute 700)) (Some (at_minute 730)) (Some 30) "UTC"])
    by (constructor; [split; reflexivity | constructor]).
  split; [exact H|].
  apply final_hours_ignore_break_times; [reflexivity | reflexivity | exact H].
Defined.

Lemma find_app_ {A : Type} (f : A -> bool) (l1 l2 : list A) :
  find f (l1 ++ l2) = match find f l1 with Some x => Some x | None => find f l2 end.
Proof. induction l1 as [|x l1 IH]; simpl; [reflexivity|]. destruct (f x); [reflexivity|exact IH]. Qed.

Lemma fold_acc_fields (bs : list BreakEntry) (a : Acc) :
  let a' := fold_left acc_step bs a in
  total_break_min a' = total_break_min a + sum_Z (map dur_or_0 bs) /\
  bio_min a' = bio_min a +
    sum_Z (map dur_or_0 (filter (fun b => BreakType_eqb (break_type b) BIO) bs)) /\
  b1_min a' = match last_of_type BREAK1 bs with Some b => dur_or_0 b | None => b1_min a end /\
  b2_min a' = match last_of_type BREAK2 bs with Some b => dur_or_0 b | None => b2_min a end.
Proof.
  revert a. induction bs as [|b bs IH]; intros a; cbv zeta.
  - unfold last_of_type; simpl. repeat split; lia.
  - cbn [fold_left]. destruct (IH (acc_step a b)) as (H1 & H2 & H3 & H4).
    rewrite H1, H2, H3, H4. unfold last_of_type. cbn [rev]. rewrite !find_app_.
    unfold acc_step, dur_or_0. simpl.
    destruct (break_type b); simpl;
      repeat split; try lia;
      try (destruct (find _ (rev bs)); reflexivity).
Qed.

(** The totals of the break loop: all durations add up (a missing one as
    0), Bio durations add up, while Break1 and Break2 minutes are those of
    the last entry of that kind (0 when there is none). *)
Theorem break_totals_fields (te : TimeEntry) :
  total_break_min (break_totals te) = sum_Z (map dur_or_0 (breaks te)) /\
  bio_min (break_totals te) =
    sum_Z (map dur_or_0 (filter (fun b => BreakType_eqb (break_type b) BIO) (breaks te))) /\
  b1_min (break_totals te) =
    match last_of_type BREAK1 (breaks te) with Some b => dur_or_0 b | None => 0 end /\
  b2_min (break_totals te) =
    match last_of_type BREAK2 (breaks te) with Some b => dur_or_0 b | None => 0 end.
Proof.
  unfold break_totals. destruct (fold_acc_fields (breaks te) acc0) as (H1 & H2 & H3 & H4).
  rewrite H1, H2, H3, H4. simpl. repeat split.
Qed.

Lemma adj_nonneg (actual : Z) (label : string) (adjs : dict) :
  actual <= MANDATORY_BREAK_MINUTES -> 0 <= fst (adj actual label adjs).
Proof.
  intros H. unfold adj. unfold MANDATORY_BREAK_MINUTES in *.
  destruct (30 <? actual) eqn:E1; [apply Z.ltb_lt in E1; cbn [fst]; lia|].
  destruct ((0 <? actual) && (actual <? 30)) eqn:E2; cbn [fst]; [|lia].
  apply andb_true_iff in E2. destruct E2 as [_ E2]. apply Z.ltb_lt in E2. lia.
Qed.

Lemma clamp_standard (r : Z) : 0 <= r ->
  py_max 0 (py_min (inject_Z STANDARD_WORK_HOURS)
    (inject_Z STANDARD_WORK_HOURS - inject_Z 0 / 60 + inject_Z r / 60)) =
  inject_Z STANDARD_WORK_HOURS.
Proof.
  intros H. pose proof (div_60_nonneg r H) as Hr.
  unfold py_min. destruct (Qlt_bool _ (inject_Z STANDARD_WORK_HOURS)) eqn:E.
  - apply Qlt_bool_iff in E. exfalso.
    assert (E0 : (inject_Z 0 / 60 == 0)%Q) by reflexivity. lra.
  - unfold STANDARD_WORK_HOURS. vm_compute. reflexivity.
Qed.

Lemma full_day_no_excess (a : Acc) :
  b1_min a <= MANDATORY_BREAK_MINUTES -> b2_min a <= MANDATORY_BREAK_MINUTES ->
  bio_min a <= MAX_BIO_BREAK_MINUTES ->
  fst (fst (full_day a)) = inject_Z STANDARD_WORK_HOURS.
Proof.
  intros H1 H2 H3. unfold full_day.
  pose proof (adj_nonneg (b1_min a) "break1" [] H1) as R1.
  destruct (adj (b1_min a) "break1" []) as [r1 adjs1]. simpl in R1.
  pose proof (adj_nonneg (b2_min a) "break2" adjs1 H2) as R2.
  destruct (adj (b2_min a) "break2" adjs1) as [r2 adjs2]. simpl in R2.
  replace (MAX_BIO_BREAK_MINUTES <? bio_min a) with false
    by (symmetry; apply Z.ltb_ge; exact H3).
  cbn [fst snd]. apply clamp_standard. lia.
Qed.

(** A full workday whose Break1, Break2 and Bio minutes stay within 30 each
    is paid exactly the standard 9 hours: unused break minutes are credited
    but the result is capped at 9. *)
Theorem full_day_within_limits_pays_standard (te : TimeEntry) (login : Z)
    (Hl : login_time te = Some login) (Hfull : full_workday te login = true)
    (H1 : b1_min (break_totals te) <= 30) (H2 : b2_min (break_totals te) <= 30)
    (H3 : bio_min (break_totals te) <= 30) :
  fst (fst (calculate_work_hours te)) = inject_Z 9.
Proof.
  rewrite calculate_final_hours, Hl. cbv zeta.
  unfold full_workday, logged_hours in Hfull. rewrite Hfull.
  apply full_day_no_excess; assumption.
Qed.

Lemma full_day_within_limits_pays_standard_witness :
  full_workday full_day_within_limits_witness_day (at_minute (9 * 60)) = true /\
  fst (fst (calculate_work_hours full_day_within_limits_witness_day)) = inject_Z 9.
Proof.
  split; [vm_compute; reflexivity|].
  apply (full_day_within_limits_pays_standard full_day_within_limits_witness_day
           (at_minute (9 * 60))); vm_compute; first [reflexivity | discriminate].
Defined.

Lemma partial_day_bound (h : Q) (a : Acc) :
  fst (fst (partial_day h a)) = 0%Q \/
  (fst (fst (partial_day h a)) <= h - inject_Z (total_break_min a) / 60)%Q.
Proof.
  destruct (partial_day_final h a) as [pen [Hp ->]].
  pose proof (div_60_nonneg pen Hp) as Hq.
  unfold py_max. destruct (Qlt_bool 0 _) eqn:E; [right; lra | left; reflexivity].
Qed.

(** On a day that is not a full workday the pay is 0 or at most the logged
    hours minus all break minutes: penalties only lower it. *)
Theorem partial_day_never_exceeds_net_time (te : TimeEntry) (login : Z)
    (Hl : login_time te = Some login) (Hpart : full_workday te login = false) :
  fst (fst (calculate_work_hours te)) = 0%Q \/
  (fst (fst (calculate_work_hours te)) <=
     logged_hours te login - inject_Z (total_break_min (break_totals te)) / 60)%Q.
Proof.
  rewrite calculate_final_hours, Hl. cbv zeta.
  unfold full_workday, logged_hours in Hpart. rewrite Hpart.
  apply partial_day_bound.
Qed.

Lemma partial_day_never_exceeds_net_time_witness :
  full_workday half_day (at_minute (9 * 60)) = false /\
  (fst (fst (calculate_work_hours half_day)) = 0%Q \/
   (fst (fst (calculate_work_hours half_day)) <=
      logged_hours half_day (at_minute (9 * 60))
      - inject_Z (total_break_min (break_totals half_day)) / 60)%Q).
Proof.
  split; [vm_compute; reflexivity|].
  apply partial_day_never_exceeds_net_time; vm_compute; reflexivity.
Defined.

Lemma calculate_scenario (te : TimeEntry) (login : Z) :
  login_time te = Some login ->
  snd (calculate_work_hours te) =
    (let scenario1 :=
       if snd (fst (if full_workday te login then full_day (break_totals te)
                    else partial_day (logged_hours te login) (break_totals te))) =? 0
       then match logout_time te with
            | Some _ => "Calculation"%string
            | None => "Emp forgot to logout"%string
            end
       else "Emp exceeds break"%string in
     if fst (check_overlapping_breaks (breaks te))
     then (scenario1 ++ " with overlapping breaks")%string else scenario1).
Proof.
  intros Hl. unfold calculate_work_hours, full_workday, logged_hours, break_totals.
  rewrite Hl. cbv zeta. unfold handle_overlapping_breaks.
  destruct (check_overlapping_breaks (breaks te)) as [has msg].
  destruct (if Qlt_bool _ _ then _ else _) as [[f p] adjs]. reflexivity.
Qed.

Lemma full_day_penalty_zero (a : Acc) :
  (snd (fst (full_day a)) =? 0) = negb (MAX_BIO_BREAK_MINUTES <? bio_min a).
Proof.
  unfold full_day. destruct (adj (b1_min a) "break1" []) as [r1 adjs1].
  destruct (adj (b2_min a) "break2" adjs1) as [r2 adjs2].
  unfold MAX_BIO_BREAK_MINUTES in *.
  destruct (30 <? bio_min a) eqn:E; cbn [fst snd negb].
  - apply Z.ltb_lt in E. apply Z.eqb_neq. lia.
  - reflexivity.
Qed.

Lemma excess_penalty_fst (actual cap : Z) (label : string) (pa : Z * dict) :
  fst (excess_penalty actual cap label pa) =
    fst pa + (if cap <? actual then actual - cap else 0).
Proof.
  destruct pa as [p adjs]. unfold excess_penalty.
  destruct (cap <? actual); cbn [fst]; lia.
Qed.

Lemma partial_day_penalty_zero (h : Q) (a : Acc) :
  (snd (fst (partial_day h a)) =? 0) =
    negb ((MANDATORY_BREAK_MINUTES <? b1_min a) || (MANDATORY_BREAK_MINUTES <? b2_min a)
          || (MAX_BIO_BREAK_MINUTES <? bio_min a)).
Proof.
  assert (Hp : snd (fst (partial_day h a)) =
    fst (excess_penalty (bio_min a) MAX_BIO_BREAK_MINUTES "bio_excess_penalty"
      (excess_penalty (b2_min a) MANDATORY_BREAK_MINUTES "break2_excess_penalty"
        (excess_penalty (b1_min a) MANDATORY_BREAK_MINUTES "break1_excess_penalty"
          (0, []))))).
  { unfold partial_day. destruct (excess_penalty (bio_min a) _ _ _). reflexivity. }
  rewrite Hp, !excess_penalty_fst. cbn [fst].
  unfold MANDATORY_BREAK_MINUTES, MAX_BIO_BREAK_MINUTES.
  destruct (30 <? b1_min a) eqn:E1, (30 <? b2_min a) eqn:E2, (30 <? bio_min a) eqn:E3;
    cbn [orb negb];
    repeat match goal with
           | H : (_ <? _) = true |- _ => apply Z.ltb_lt in H
           | H : (_ <? _) = false |- _ => apply Z.ltb_ge in H
           end;
    first [apply Z.eqb_eq; lia | apply Z.eqb_neq; lia].
Qed.

(** The scenario label: "Emp exceeds break" on a full workday only when Bio
    minutes exceed 30 (Break1 or Break2 excess does not change it), and on
    any other day when Break1, Break2 or Bio exceeds its 30-minute cap;
    otherwise "Calculation", or "Emp forgot to logout" without a logout.
    " with overlapping breaks" is appended exactly when two timed breaks
    overlap. *)
Theorem scenario_label (te : TimeEntry) (login : Z) (Hl : login_time te = Some login) :
  snd (calculate_work_hours te) =
    String.append (if (if full_workday te login
          then MAX_BIO_BREAK_MINUTES <? bio_min (break_totals te)
          else (MANDATORY_BREAK_MINUTES <? b1_min (break_totals te))
               || (MANDATORY_BREAK_MINUTES <? b2_min (break_totals te))
               || (MAX_BIO_BREAK_MINUTES <? bio_min (break_totals te)))
      then "Emp exceeds break"%string
      else match logout_time te with
           | Some _ => "Calculation"%string
           | None => "Emp forgot to logout"%string
           end)
     (if fst (check_overlapping_breaks (breaks te)) then " with overlapping breaks"%string else ""%string).
Proof.
  rewrite (calculate_scenario te login Hl). cbv zeta.
  destruct (full_workday te login);
    [rewrite full_day_penalty_zero | rewrite partial_day_penalty_zero];
    match goal with |- context [negb ?c] => destruct c end; cbn [negb];
    destruct (logout_time te), (fst (check_overlapping_breaks (breaks te))); reflexivity.
Qed.

Lemma scenario_label_witness :
  snd (calculate_work_hours excess_day) =
    String.append (if (if full_workday excess_day (at_minute (9 * 60))
          then MAX_BIO_BREAK_MINUTES <? bio_min (break_totals excess_day)
          else (MANDATORY_BREAK_MINUTES <? b1_min (break_totals excess_day))
               || (MANDATORY_BREAK_MINUTES <? b2_min (break_totals excess_day))
               || (MAX_BIO_BREAK_MINUTES <? bio_min (break_totals excess_day)))
      then "Emp exceeds break"%string
      else match logout_time excess_day with
           | Some _ => "Calculation"%string
           | None => "Emp forgot to logout"%string
           end)
     (if fst (check_overlapping_breaks (breaks excess_day))
      then " with overlapping breaks"%string else ""%string).
Proof. apply scenario_label. reflexivity. Defined.

(** ** Extra properties: the endpoints *)

Lemma py_round_small (q : Q) : (0 <= q)%Q -> (q <= 1 # 2)%Q -> py_round q = 0.
Proof.
  intros H0 H1.
  assert (Hf : Qfloor q = 0).
  { pose proof (Qfloor_le q) as A. pose proof (Qlt_floor q) as B.
    assert (A' : (inject_Z (Qfloor q) < inject_Z 1)%Q) by (change (inject_Z 1) with 1%Q; lra).
    assert (B' : (inject_Z 0 < inject_Z (Qfloor q + 1))%Q) by (change (inject_Z 0) with 0%Q; lra).
    rewrite <- Zlt_Qlt in A', B'. lia. }
  unfold py_round. rewrite Hf.
  assert (E0 : (inject_Z 0 == 0)%Q) by reflexivity.
  destruct (Qlt_bool (q - inject_Z 0) (1 # 2)); [reflexivity|].
  destruct (Qlt_bool (1 # 2) (q - inject_Z 0)) eqn:E2; [|reflexivity].
  apply Qlt_bool_iff in E2. lra.
Qed.

(** A positive amount of at most 30 seconds (1/120 hour) is displayed as
    "0 hrs", not "Absent": only exactly zero hours display as "Absent". *)
Theorem format_small_positive_hours (hrs : Q) (Hpos : (0 < hrs)%Q) (Hsmall : (hrs <= 1 # 120)%Q) :
  format_work_hours hrs = "0 hrs"%string.
Proof.
  unfold format_work_hours.
  destruct (Qeq_bool hrs 0) eqn:E.
  - apply Qeq_bool_iff in E. lra.
  - rewrite (py_round_small (hrs * 60)) by lra. reflexivity.
Qed.

Lemma format_small_positive_hours_witness :
  format_work_hours (1 # 200) = "0 hrs"%string.
Proof. apply format_small_positive_hours; vm_compute; first [reflexivity | discriminate]. Defined.

(** A whole number [n > 0] of hours is displayed as ["n hrs"]. *)
Theorem format_whole_hours (n : Z) (Hn : 0 < n) :
  format_work_hours (inject_Z n) = (string_of_Z n ++ " hrs")%string.
Proof.
  unfold format_work_hours.
  destruct (Qeq_bool (inject_Z n) 0) eqn:E.
  - apply Qeq_bool_iff in E. change 0%Q with (inject_Z 0) in E.
    rewrite inject_Z_injective in E. lia.
  - replace (inject_Z n * 60)%Q with (inject_Z (n * 60)) by reflexivity.
    unfold py_round. rewrite Qfloor_Z.
    destruct (Qlt_bool (inject_Z (n * 60) - inject_Z (n * 60)) (1 # 2)) eqn:E1.
    + rewrite Z.div_mul, Z.mod_mul by lia. reflexivity.
    + exfalso. assert (Hlt : (inject_Z (n * 60) - inject_Z (n * 60) < 1 # 2)%Q) by lra.
      apply Qlt_bool_iff in Hlt. congruence.
Qed.

Lemma format_whole_hours_witness :
  format_work_hours (inject_Z 9) = "9 hrs"%string.
Proof. apply (format_whole_hours 9). lia. Defined.

Lemma digits_aux_head (f n : nat) (acc : string) :
  exists k rest, (k < 10)%nat /\
    digits_aux (S f) n acc = String (ascii_of_nat (48 + k)) rest.
Proof.
  revert n acc. induction f as [|f IH]; intros n acc; cbn [digits_aux].
  - destruct (Nat.ltb n 10); exists (Nat.modulo n 10);
      eexists; split; try reflexivity; apply Nat.mod_upper_bound; discriminate.
  - destruct (Nat.ltb n 10).
    + exists (Nat.modulo n 10). eexists. split; [|reflexivity].
      apply Nat.mod_upper_bound. discriminate.
    + apply IH.
Qed.

Lemma string_of_Z_not_absent (z : Z) (rest : string) :
  (string_of_Z z ++ rest)%string <> "Absent"%string.
Proof.
  unfold string_of_Z. destruct (z <? 0); [discriminate|].
  unfold string_of_nat. destruct (digits_aux_head (Z.to_nat z) (Z.to_nat z) "")
    as [k [r [Hk ->]]].
  simpl. intros H. injection H as Hc _.
  do 10 (destruct k as [|k]; [discriminate|]). lia.
Qed.

(** The [calculate_hours] answer shows "Absent" exactly when the calculated
    hours are zero. *)
Theorem calculate_hours_absent_iff_zero (session : TimeEntry) (emp : string) :
  match calculate_hours (Some session) emp with
  | Some r =>
      resp_total_work_hours r = "Absent"%string <->
      (fst (fst (calculate_work_hours session)) == 0)%Q
  | None => False
  end.
Proof.
  unfold calculate_hours.
  destruct (calculate_work_hours session) as [[hrs details] scenario]. cbn [fst resp_total_work_hours].
  unfold format_work_hours. destruct (Qeq_bool hrs 0) eqn:E.
  - apply Qeq_bool_iff in E. split; [intros _; exact E | reflexivity].
  - split.
    + destruct ((py_round (hrs * 60)) mod 60 =? 0); intros H; exfalso;
        [exact (string_of_Z_not_absent _ _ H) | exact (string_of_Z_not_absent _ _ H)].
    + intros H. apply Qeq_bool_iff in H. congruence.
Qed.

Lemma partial_day_no_breaks (h : Q) :
  (fst (fst (partial_day h acc0)) == if Qle_bool h 0 then 0 else h)%Q.
Proof.
  unfold partial_day, excess_penalty, MAX_BIO_BREAK_MINUTES, MANDATORY_BREAK_MINUTES. simpl.
  assert (E0 : (inject_Z 0 / 60 == 0)%Q) by reflexivity.
  unfold py_max. destruct (Qlt_bool 0 _) eqn:E1; destruct (Qle_bool h 0) eqn:E2;
    try apply Qlt_bool_iff in E1; try apply Qle_bool_iff in E2.
  - lra.
  - lra.
  - unfold Qlt_bool in E1. apply negb_false_iff, Qle_bool_iff in E1. lra.
  - unfold Qlt_bool in E1. apply negb_false_iff, Qle_bool_iff in E1.
    assert (E3 : ~ (h <= 0)%Q) by (intros H; apply Qle_bool_iff in H; congruence). lra.
Qed.

(** Logging in with no session and then logging out gives a session with
    both times and no breaks; its calculation is labelled "Calculation" and
    pays 9 hours on a full workday, and otherwise the logged hours (0 when
    the logout is not after the login). *)
Theorem login_logout_calculation (emp tz : string) (t1 t2 : Z) :
  match snd (logout (Some (login None tz emp t1)) tz emp t2) with
  | Some s =>
      s = mkTimeEntry emp (Some t1) (Some t2) [] tz /\
      snd (calculate_work_hours s) = "Calculation"%string /\
      (let h := (inject_Z (t2 - t1) / inject_Z US_PER_HOUR)%Q in
       if Qlt_bool (Qabs (h - inject_Z STANDARD_WORK_HOURS)) (1 # 2)
       then fst (fst (calculate_work_hours s)) = inject_Z 9
       else (fst (fst (calculate_work_hours s)) == if Qle_bool h 0 then 0 else h)%Q)
  | None => False
  end.
Proof.
  replace (snd (logout (Some (login None tz emp t1)) tz emp t2))
    with (Some (mkTimeEntry emp (Some t1) (Some t2) [] tz)) by reflexivity.
  split; [reflexivity|]. split.
  - rewrite (calculate_scenario (mkTimeEntry emp (Some t1) (Some t2) [] tz) t1 eq_refl).
    destruct (full_workday _ t1);
      [rewrite full_day_penalty_zero | rewrite partial_day_penalty_zero]; reflexivity.
  - rewrite calculate_final_hours. cbv zeta. cbn [login_time logout_time].
    destruct (Qlt_bool _ _).
    + apply full_day_no_excess; unfold break_totals; simpl; discriminate.
    + apply partial_day_no_breaks.
Qed.


(** Updating an existing session with an empty break list erases its
    breaks: the replace-or-append rule is skipped for an empty value. *)
Theorem empty_break_update_clears (s : TimeEntry) (emp tz : string) :
  create_or_update_session (Some s) emp tz [UpdBreaks []] =
    mkTimeEntry (emp_id s) (login_time s) (logout_time s) [] tz.
Proof. reflexivity. Qed.

(** ** Extra properties: client address and timezone *)

Lemma lstrip_in (c : ascii) (s : string) :
  In c (list_ascii_of_string (lstrip s)) -> In c (list_ascii_of_string s).
Proof.
  induction s as [|c0 s IH]; simpl; [tauto|].
  destruct (is_py_space c0); simpl; [intros H; right; exact (IH H)|tauto].
Qed.

Lemma rstrip_in (c : ascii) (s : string) :
  In c (list_ascii_of_string (rstrip s)) -> In c (list_ascii_of_string s).
Proof.
  induction s as [|c0 s IH]; simpl; [tauto|].
  destruct (rstrip s) as [|x y] eqn:E.
  - destruct (is_py_space c0); simpl; tauto.
  - simpl. intros [H|H]; [left; exact H | right; apply IH; exact H].
Qed.

Lemma upto_comma_no_comma (s : string) :
  ~ In ","%char (list_ascii_of_string (upto_comma s)).
Proof.
  induction s as [|c s IH]; simpl; [tauto|].
  destruct (Ascii.eqb c ",") eqn:E; simpl; [tauto|].
  intros [H|H]; [subst c; discriminate | exact (IH H)].
Qed.

Lemma lstrip_first (s : string) : first_char_not_space (lstrip s).
Proof.
  unfold first_char_not_space. induction s as [|c0 s IH]; simpl; [discriminate|].
  destruct (is_py_space c0) eqn:E; [exact IH|].
  intros c r H. injection H as <- _. exact E.
Qed.

Lemma rstrip_head (t : string) (c : ascii) (r : string) :
  rstrip t = String c r -> exists r', t = String c r'.
Proof.
  destruct t as [|c0 t]; simpl; [discriminate|].
  destruct (rstrip t) as [|x y].
  - destruct (is_py_space c0); [discriminate|]. intros H. injection H as <- _. eexists; reflexivity.
  - intros H. injection H as <- _. eexists; reflexivity.
Qed.

Lemma rstrip_last (t : string) : last_char_not_space (rstrip t).
Proof.
  unfold last_char_not_space. induction t as [|c0 t IH]; simpl.
  - intros p c H. destruct p; discriminate.
  - destruct (rstrip t) as [|x y] eqn:E.
    + destruct (is_py_space c0) eqn:Es; intros p c H; [destruct p; discriminate|].
      destruct p as [|c1 p]; simpl in H.
      * injection H as <-. exact Es.
      * injection H as _ H. destruct p; discriminate.
    + intros p c H. destruct p as [|c1 p]; simpl in H.
      * injection H as _ H. discriminate.
      * injection H as _ H. exact (IH p c H).
Qed.

(** With a non-empty X-Forwarded-For header the client address is its first
    entry with surrounding whitespace removed: it holds no comma and neither
    starts nor ends with whitespace; X-Real-IP and the peer address are not
    consulted. *)
Theorem forwarded_for_first_hop (request : ClientRequest) (ff : string)
    (Hff : hdr_x_forwarded_for request = Some ff) (Hne : ff <> EmptyString) :
  get_client_ip request = strip (upto_comma ff) /\
  ~ In ","%char (list_ascii_of_string (get_client_ip request)) /\
  first_char_not_space (get_client_ip request) /\
  last_char_not_space (get_client_ip request).
Proof.
  assert (Hip : get_client_ip request = strip (upto_comma ff)).
  { unfold get_client_ip, header_value. rewrite Hff.
    destruct (String.eqb ff "") eqn:E; [apply String.eqb_eq in E; contradiction|reflexivity]. }
  rewrite Hip. unfold strip. split; [reflexivity|]. split; [|split].
  - intros H. apply rstrip_in, lstrip_in in H. exact (upto_comma_no_comma ff H).
  - intros c r H. destruct (rstrip_head _ _ _ H) as [r' Hr'].
    exact (lstrip_first (upto_comma ff) c r' Hr').
  - apply rstrip_last.
Qed.

Lemma forwarded_for_first_hop_witness :
  get_client_ip (mkClientRequest (Some " 49.36.10.2 , 10.0.0.1"%string) None None)
    = "49.36.10.2"%string.
Proof.
  destruct (forwarded_for_first_hop (mkClientRequest (Some " 49.36.10.2 , 10.0.0.1"%string) None None)
              " 49.36.10.2 , 10.0.0.1"%string eq_refl ltac:(discriminate)) as [H _].
  rewrite H. reflexivity.
Defined.



(** [get_timezone_from_ip] answers either the default timezone without a
    location, or a non-empty timezone name that pytz knows, with the
    location. *)
Theorem timezone_known_or_default (pytz_known : string -> bool) (Location : Type)
    (default_timezone : string) (answer : option (IpApiData Location)) :
  let '(tz, loc) := get_timezone_from_ip pytz_known Location default_timezone answer in
  (tz = default_timezone /\ loc = None) \/
  (pytz_known tz = true /\ tz <> EmptyString /\ loc <> None).
Proof.
  unfold get_timezone_from_ip, get_timezone_from_ipapi.
  destruct answer as [data|]; [|left; split; reflexivity].
  destruct (api_status _ data) as [status|], (api_timezone _ data) as [tz|];
    try (left; split; reflexivity).
  destruct (String.eqb status "success" && negb (String.eqb tz "")) eqn:E;
    [|left; split; reflexivity].
  destruct (pytz_known tz) eqn:K; [|left; split; reflexivity].
  right. split; [exact K|]. split; [|discriminate].
  apply andb_true_iff in E. destruct E as [_ E]. apply negb_true_iff, String.eqb_neq in E. exact E.
Qed.
